(** * discord-oauth2: permission bit masks and the OAuth2 client

    A shallow embedding of the TypeScript sources

      - [src/utils/permissions.ts]  (flag table, calculatePermissions,
        hasPermission, getPermissionFlags),
      - [structures/errors.ts]      (the error classes),
      - [utils/helpers.ts]          (buildUrl, toFormUrlEncoded, ...),
      - [utils/http.ts]             (HttpClient),
      - [structures/client.ts]      (OAuth2Client),

    together with the properties the specification states about them.

    Conventions.  A JavaScript [bigint] is a [Z]: both are unbounded and the
    bitwise operators of [bigint] act on the infinite two's complement
    representation, exactly as [Z.land] and [Z.lor] do.  A JavaScript string
    is a [string] of bytes; the texts handled here (decimal numbers, flag
    names, tokens, URLs) are ASCII.  A call that throws is a value [Threw e];
    an [async] method is a computation [Prog] whose only effect is the
    request handed to the transport ([fetch]). *)

From Stdlib Require Import ZArith List String Ascii Bool Lia.
Import ListNotations.

#[local] Set Warnings "-register-all".
Local Open Scope string_scope.
Local Open Scope Z_scope.

(** ** Errors (structures/errors.ts) and completions *)

(** A value parsed from, or printed as, JSON text.  Numbers are carried as
    integers; the client passes them on without computing with them.  An
    object keeps its properties in the order of the text, a repeated key
    included. *)
Inductive Json : Type :=
| JNull
| JBool (b : bool)
| JNumber (n : Z)
| JString (s : string)
| JArray (items : list Json)
| JObject (fields : list (string * Json)).

(** Everything the modelled code can throw: the four classes of
    structures/errors.ts, the [SyntaxError] of [BigInt(...)] and of
    [response.json()], a rejection of [fetch] itself, and the [TypeError] of
    a conversion to a string that finds no primitive value.  The fields
    [code] and [errors] of a [DiscordAPIRequestError] hold whatever the
    body of the response had under these names: the declared types
    ([number], [Record<string, unknown>]) are not checked at run time. *)
Inductive JsError : Type :=
| OAuth2Error (message : string)
| DiscordAPIRequestError (message : string) (statusCode : Z)
    (code : option Json) (errors : option Json)
| ConfigurationError (message : string)
| ValidationError (message : string)
| SyntaxError
| NetworkError
| TypeError.

(** [this.name], as each constructor assigns it. *)
Definition error_name (e : JsError) : string :=
  match e with
  | OAuth2Error _ => "OAuth2Error"
  | DiscordAPIRequestError _ _ _ _ => "DiscordAPIRequestError"
  | ConfigurationError _ => "ConfigurationError"
  | ValidationError _ => "ValidationError"
  | SyntaxError => "SyntaxError"
  | NetworkError | TypeError => "TypeError"
  end.

Definition error_message (e : JsError) : string :=
  match e with
  | OAuth2Error m | DiscordAPIRequestError m _ _ _
  | ConfigurationError m | ValidationError m => m
  | SyntaxError | NetworkError | TypeError => ""
  end.

(** The classes of structures/errors.ts and [e instanceof C]: the three
    subclasses extend [OAuth2Error] and are siblings of one another. *)
Inductive ErrorClass : Type :=
| ClsOAuth2Error | ClsDiscordAPIRequestError | ClsConfigurationError | ClsValidationError.

Definition instanceOf (e : JsError) (c : ErrorClass) : bool :=
  match e, c with
  | OAuth2Error _, ClsOAuth2Error => true
  | DiscordAPIRequestError _ _ _ _, (ClsOAuth2Error | ClsDiscordAPIRequestError) => true
  | ConfigurationError _, (ClsOAuth2Error | ClsConfigurationError) => true
  | ValidationError _, (ClsOAuth2Error | ClsValidationError) => true
  | _, _ => false
  end.

(** The outcome of a synchronous call. *)
Inductive Completion (A : Type) : Type :=
| Normal (a : A)
| Threw (e : JsError).
Arguments Normal {A} a.
Arguments Threw {A} e.

Definition bindC {A B} (c : Completion A) (k : A -> Completion B) : Completion B :=
  match c with
  | Normal a => k a
  | Threw e => Threw e
  end.

Notation "'let?' x ':=' c 'in' k" := (bindC c (fun x => k))
  (at level 10, x name, c at level 100, k at level 200).

(** ** Decimal text of a bigint *)

Module BigIntText.

(** [BigInt.prototype.toString()] in radix 10: the digits of the magnitude,
    most significant first, after a minus sign for a negative value. *)
Definition digitChar (d : Z) : ascii := ascii_of_nat (48 + Z.to_nat d).

Fixpoint digitsOf (fuel : nat) (n : Z) (acc : string) : string :=
  match fuel with
  | O => acc
  | S fuel' =>
      let acc' := String (digitChar (n mod 10)) acc in
      if n <? 10 then acc' else digitsOf fuel' (n / 10) acc'
  end.

(** A magnitude [n] has at most [log2 n + 1] decimal digits. *)
Definition digitFuel (n : Z) : nat := S (Z.to_nat (Z.log2 n)).

Definition toString (n : Z) : string :=
  if n <? 0 then String "-" (digitsOf (digitFuel (- n)) (- n) "")
  else digitsOf (digitFuel n) n "".

(** [BigInt(string)], the StringToBigInt grammar of ECMAScript: white space
    is trimmed at both ends; the empty text is [0n]; a decimal literal may
    carry a sign; [0x], [0o] and [0b] literals carry none; anything else is a
    [SyntaxError]. *)
Definition isWhiteSpace (c : ascii) : bool :=
  let n := nat_of_ascii c in
  (Nat.eqb n 9 || Nat.eqb n 10 || Nat.eqb n 11 || Nat.eqb n 12 || Nat.eqb n 13 || Nat.eqb n 32)%bool.

Fixpoint trimStart (s : string) : string :=
  match s with
  | String c s' => if isWhiteSpace c then trimStart s' else s
  | EmptyString => EmptyString
  end.

Fixpoint trimEnd (s : string) : string :=
  match s with
  | EmptyString => EmptyString
  | String c s' =>
      match trimEnd s' with
      | EmptyString => if isWhiteSpace c then EmptyString else String c EmptyString
      | t => String c t
      end
  end.

Definition digitValue (radix : Z) (c : ascii) : option Z :=
  let n := Z.of_nat (nat_of_ascii c) in
  let v :=
    if (48 <=? n) && (n <=? 57) then Some (n - 48)
    else if (97 <=? n) && (n <=? 122) then Some (n - 87)
    else if (65 <=? n) && (n <=? 90) then Some (n - 55)
    else None in
  match v with
  | Some d => if d <? radix then Some d else None
  | None => None
  end.

Fixpoint parseDigits (radix : Z) (s : string) (acc : Z) : option Z :=
  match s with
  | EmptyString => Some acc
  | String c s' =>
      match digitValue radix c with
      | Some d => parseDigits radix s' (acc * radix + d)
      | None => None
      end
  end.

(** One or more digits of the radix. *)
Definition parseNumeral (radix : Z) (s : string) : option Z :=
  match s with
  | EmptyString => None
  | _ => parseDigits radix s 0
  end.

(** The radix a prefix letter after a leading zero announces. *)
Definition radixOfPrefix (c : ascii) : option Z :=
  if Ascii.eqb c "x" || Ascii.eqb c "X" then Some 16
  else if Ascii.eqb c "o" || Ascii.eqb c "O" then Some 8
  else if Ascii.eqb c "b" || Ascii.eqb c "B" then Some 2
  else None.

Definition nonDecimalLiteral (t : string) : option (Z * string) :=
  match t with
  | String z (String p ds) =>
      if Ascii.eqb z "0" then option_map (fun radix => (radix, ds)) (radixOfPrefix p) else None
  | _ => None
  end.

Definition StringToBigInt (s : string) : option Z :=
  let t := trimEnd (trimStart s) in
  match t with
  | EmptyString => Some 0
  | String c rest =>
      if Ascii.eqb c "+" then parseNumeral 10 rest
      else if Ascii.eqb c "-" then option_map Z.opp (parseNumeral 10 rest)
      else match nonDecimalLiteral t with
           | Some (radix, ds) => parseNumeral radix ds
           | None => parseNumeral 10 t
           end
  end.

Definition BigInt (s : string) : Completion Z :=
  match StringToBigInt s with
  | Some n => Normal n
  | None => Threw SyntaxError
  end.

End BigIntText.

(** ** Permission flags (src/utils/permissions.ts) *)

Module Permissions.
Import BigIntText.

(** The object [PermissionFlags]; [Object.entries] lists its keys, none of
    which is an array index, in the order of declaration. *)
Definition PermissionFlags : list (string * Z) :=
  [ ("CREATE_INSTANT_INVITE", Z.shiftl 1 0);
    ("KICK_MEMBERS", Z.shiftl 1 1);
    ("BAN_MEMBERS", Z.shiftl 1 2);
    ("ADMINISTRATOR", Z.shiftl 1 3);
    ("MANAGE_CHANNELS", Z.shiftl 1 4);
    ("MANAGE_GUILD", Z.shiftl 1 5);
    ("ADD_REACTIONS", Z.shiftl 1 6);
    ("VIEW_AUDIT_LOG", Z.shiftl 1 7);
    ("PRIORITY_SPEAKER", Z.shiftl 1 8);
    ("STREAM", Z.shiftl 1 9);
    ("VIEW_CHANNEL", Z.shiftl 1 10);
    ("SEND_MESSAGES", Z.shiftl 1 11);
    ("SEND_TTS_MESSAGES", Z.shiftl 1 12);
    ("MANAGE_MESSAGES", Z.shiftl 1 13);
    ("EMBED_LINKS", Z.shiftl 1 14);
    ("ATTACH_FILES", Z.shiftl 1 15);
    ("READ_MESSAGE_HISTORY", Z.shiftl 1 16);
    ("MENTION_EVERYONE", Z.shiftl 1 17);
    ("USE_EXTERNAL_EMOJIS", Z.shiftl 1 18);
    ("VIEW_GUILD_INSIGHTS", Z.shiftl 1 19);
    ("CONNECT", Z.shiftl 1 20);
    ("SPEAK", Z.shiftl 1 21);
    ("MUTE_MEMBERS", Z.shiftl 1 22);
    ("DEAFEN_MEMBERS", Z.shiftl 1 23);
    ("MOVE_MEMBERS", Z.shiftl 1 24);
    ("USE_VAD", Z.shiftl 1 25);
    ("CHANGE_NICKNAME", Z.shiftl 1 26);
    ("MANAGE_NICKNAMES", Z.shiftl 1 27);
    ("MANAGE_ROLES", Z.shiftl 1 28);
    ("MANAGE_WEBHOOKS", Z.shiftl 1 29);
    ("MANAGE_GUILD_EXPRESSIONS", Z.shiftl 1 30);
    ("USE_APPLICATION_COMMANDS", Z.shiftl 1 31);
    ("REQUEST_TO_SPEAK", Z.shiftl 1 32);
    ("MANAGE_EVENTS", Z.shiftl 1 33);
    ("MANAGE_THREADS", Z.shiftl 1 34);
    ("CREATE_PUBLIC_THREADS", Z.shiftl 1 35);
    ("CREATE_PRIVATE_THREADS", Z.shiftl 1 36);
    ("USE_EXTERNAL_STICKERS", Z.shiftl 1 37);
    ("SEND_MESSAGES_IN_THREADS", Z.shiftl 1 38);
    ("USE_EMBEDDED_ACTIVITIES", Z.shiftl 1 39);
    ("MODERATE_MEMBERS", Z.shiftl 1 40);
    ("VIEW_CREATOR_MONETIZATION_ANALYTICS", Z.shiftl 1 41);
    ("USE_SOUNDBOARD", Z.shiftl 1 42);
    ("CREATE_GUILD_EXPRESSIONS", Z.shiftl 1 43);
    ("CREATE_EVENTS", Z.shiftl 1 44);
    ("USE_EXTERNAL_SOUNDS", Z.shiftl 1 45);
    ("SEND_VOICE_MESSAGES", Z.shiftl 1 46);
    ("SEND_POLLS", Z.shiftl 1 49);
    ("USE_EXTERNAL_APPS", Z.shiftl 1 50) ].

(** [PermissionFlags.NAME]; a name outside the table reads [undefined]. *)
Fixpoint lookupFlag (table : list (string * Z)) (name : string) : option Z :=
  match table with
  | [] => None
  | (n, v) :: rest => if String.eqb n name then Some v else lookupFlag rest name
  end.

Definition flag (name : string) : Z :=
  match lookupFlag PermissionFlags name with
  | Some v => v
  | None => 0
  end.

(** The object [PermissionPresets]. *)
Definition PermissionPresets : list (string * Z) :=
  [ ("NONE", 0);
    ("ADMINISTRATOR", flag "ADMINISTRATOR");
    ("BASIC_TEXT",
      Z.lor (Z.lor (flag "VIEW_CHANNEL") (flag "SEND_MESSAGES")) (flag "READ_MESSAGE_HISTORY"));
    ("BASIC_VOICE", Z.lor (Z.lor (flag "VIEW_CHANNEL") (flag "CONNECT")) (flag "SPEAK"));
    ("MODERATOR",
      Z.lor (Z.lor (Z.lor (flag "KICK_MEMBERS") (flag "BAN_MEMBERS")) (flag "MANAGE_MESSAGES"))
        (flag "MODERATE_MEMBERS"));
    ("TEXT_AND_EMBEDS",
      Z.lor (Z.lor (Z.lor (Z.lor (flag "VIEW_CHANNEL") (flag "SEND_MESSAGES")) (flag "EMBED_LINKS"))
               (flag "ATTACH_FILES"))
        (flag "READ_MESSAGE_HISTORY")) ].

(** The argument type [string | bigint]. *)
Inductive PermissionValue : Type :=
| PermString (s : string)
| PermBigInt (n : Z).

(** [typeof permissions === 'string' ? BigInt(permissions) : permissions] *)
Definition toPerms (permissions : PermissionValue) : Completion Z :=
  match permissions with
  | PermString s => BigInt s
  | PermBigInt n => Normal n
  end.

(** [permissions.reduce((acc, perm) => acc | perm, 0n)], then [toString()]. *)
Definition combine (permissions : list Z) : Z :=
  fold_left (fun acc perm => Z.lor acc perm) permissions 0.

Definition calculatePermissions (permissions : list Z) : string :=
  toString (combine permissions).

Definition hasPermission (permissions : PermissionValue) (flag : Z) : Completion bool :=
  let? perms := toPerms permissions in
  Normal (Z.land perms flag =? flag).

(** The loop over [Object.entries(PermissionFlags)] pushing each name whose
    value passes the test; every value of the table is a bigint, so the
    [typeof] guard is true throughout. *)
Definition collectFlags (perms : Z) (entries : list (string * Z)) : list string :=
  fold_left
    (fun flags entry =>
       if Z.land perms (snd entry) =? snd entry then (flags ++ [fst entry])%list else flags)
    entries [].

Definition getPermissionFlags (permissions : PermissionValue) : Completion (list string) :=
  let? perms := toPerms permissions in
  Normal (collectFlags perms PermissionFlags).

End Permissions.

(** ** Helpers (utils/helpers.ts) *)

Module Helpers.
Import BigIntText.

Definition DISCORD_OAUTH2_URLS_AUTHORIZE : string := "https://discord.com/oauth2/authorize".
Definition DISCORD_OAUTH2_URLS_TOKEN : string := "https://discord.com/api/oauth2/token".
Definition DISCORD_OAUTH2_URLS_TOKEN_REVOKE : string := "https://discord.com/api/oauth2/token/revoke".
Definition DEFAULT_API_ENDPOINT : string := "https://discord.com/api/v10".

(** [Array.prototype.join]. *)
Fixpoint join (sep : string) (parts : list string) : string :=
  match parts with
  | [] => ""
  | [p] => p
  | p :: rest => p ++ sep ++ join sep rest
  end.

(** A value of a query parameter, [string | number | boolean], and
    [String(value)].  The numbers met here ([integration_type]) are small
    integers, which print in decimal. *)
Inductive ParamValue : Type :=
| PString (s : string)
| PNumber (n : Z)
| PBoolean (b : bool).

Definition String_of (v : ParamValue) : string :=
  match v with
  | PString s => s
  | PNumber n => toString n
  | PBoolean true => "true"
  | PBoolean false => "false"
  end.

(** An object used as a record of optional values: its entries in insertion
    order, [None] standing for [undefined]. *)
Definition Params : Type := list (string * option ParamValue).

(** [obj[key] = value]: an existing key keeps its place, a new one is last. *)
Fixpoint assign {V : Type} (obj : list (string * V)) (key : string) (value : V) : list (string * V) :=
  match obj with
  | [] => [(key, value)]
  | (k, v) :: rest =>
      if String.eqb k key then (k, value) :: rest else (k, v) :: assign rest key value
  end.

(** The serializer of application/x-www-form-urlencoded, shared by
    [URLSearchParams.toString()] and by the query of a [URL]: letters,
    digits and [* - . _] stand for themselves, a space is [+], any other
    byte is [%XX] in upper-case hexadecimal. *)
Definition hexDigit (d : nat) : ascii :=
  ascii_of_nat (if Nat.ltb d 10 then 48 + d else 55 + d).

Definition isUrlencodedSafe (c : ascii) : bool :=
  let n := nat_of_ascii c in
  ((Nat.leb 48 n && Nat.leb n 57) || (Nat.leb 65 n && Nat.leb n 90)
   || (Nat.leb 97 n && Nat.leb n 122)
   || Nat.eqb n 42 || Nat.eqb n 45 || Nat.eqb n 46 || Nat.eqb n 95)%bool.

Definition urlencodeByte (c : ascii) : string :=
  if isUrlencodedSafe c then String c ""
  else if Ascii.eqb c " " then "+"
  else let n := nat_of_ascii c in
       String "%" (String (hexDigit (Nat.div n 16)) (String (hexDigit (Nat.modulo n 16)) "")).

Fixpoint urlencode (s : string) : string :=
  match s with
  | EmptyString => ""
  | String c s' => urlencodeByte c ++ urlencode s'
  end.

Definition serializeQuery (q : list (string * string)) : string :=
  join "&" (map (fun kv => urlencode (fst kv) ++ "=" ++ urlencode (snd kv)) q).

(** [URLSearchParams.prototype.set]: the first pair of that name takes the
    value and later ones are dropped; without one, the pair is appended. *)
Fixpoint searchParams_set (q : list (string * string)) (key value : string) : list (string * string) :=
  match q with
  | [] => [(key, value)]
  | (k, v) :: rest =>
      if String.eqb k key
      then (k, value) :: filter (fun kv => negb (String.eqb (fst kv) key)) rest
      else (k, v) :: searchParams_set rest key value
  end.

Definition searchParams_get (q : list (string * string)) (key : string) : option string :=
  option_map snd (find (fun kv => String.eqb (fst kv) key) q).

(** A [URL] whose text has no query or fragment, with its search
    parameters; [toString()] appends the serialized query when there is
    one. *)
Record URL : Type := mkURL {
  url_base : string;
  url_searchParams : list (string * string)
}.

Definition URL_toString (u : URL) : string :=
  match url_searchParams u with
  | [] => url_base u
  | q => url_base u ++ "?" ++ serializeQuery q
  end.

(** The [URL] object of [buildUrl] once the loop over the entries has run. *)
Definition buildUrl_url (baseUrl : string) (params : Params) : URL :=
  fold_left
    (fun url entry =>
       match snd entry with
       | Some value =>
           mkURL (url_base url) (searchParams_set (url_searchParams url) (fst entry) (String_of value))
       | None => url
       end)
    params (mkURL baseUrl []).

Definition buildUrl (baseUrl : string) (params : Params) : string :=
  URL_toString (buildUrl_url baseUrl params).

Definition scopesToString (scopes : list string) : string := join " " scopes.

(** [permissions?: number | string].  A number of permissions is an integer
    small enough to print in plain decimal. *)
Inductive NumberOrString : Type :=
| NumberValue (n : Z)
| StringValue (s : string).

Definition normalizePermissions (permissions : option NumberOrString) : option string :=
  match permissions with
  | None => None
  | Some (NumberValue n) => Some (toString n)
  | Some (StringValue s) => Some s
  end.

(** [Buffer.from(text).toString('base64')]. *)
Definition base64Alphabet : string :=
  "ABCDEFGHIJKLMNOPQRSTUVWXYZabcdefghijklmnopqrstuvwxyz0123456789+/".

Definition base64Char (i : nat) : ascii :=
  match String.get i base64Alphabet with
  | Some c => c
  | None => "="%char
  end.

Fixpoint base64 (s : string) : string :=
  match s with
  | EmptyString => ""
  | String a EmptyString =>
      let x := nat_of_ascii a in
      String (base64Char (Nat.div x 4))
        (String (base64Char (Nat.modulo x 4 * 16)) "==")
  | String a (String b EmptyString) =>
      let x := nat_of_ascii a in
      let y := nat_of_ascii b in
      String (base64Char (Nat.div x 4))
        (String (base64Char (Nat.modulo x 4 * 16 + Nat.div y 16))
           (String (base64Char (Nat.modulo y 16 * 4)) "="))
  | String a (String b (String c rest)) =>
      let x := nat_of_ascii a in
      let y := nat_of_ascii b in
      let z := nat_of_ascii c in
      String (base64Char (Nat.div x 4))
        (String (base64Char (Nat.modulo x 4 * 16 + Nat.div y 16))
           (String (base64Char (Nat.modulo y 16 * 4 + Nat.div z 64))
              (String (base64Char (Nat.modulo z 64)) (base64 rest))))
  end.

Definition encodeBasicAuth (clientId clientSecret : string) : string :=
  let credentials := clientId ++ ":" ++ clientSecret in
  "Basic " ++ base64 credentials.

(** [toFormUrlEncoded]: a fresh [URLSearchParams], one [set] per defined
    entry, then [toString()]. *)
Definition toFormUrlEncoded (data : list (string * option string)) : string :=
  serializeQuery
    (fold_left
       (fun params entry =>
          match snd entry with
          | Some value => searchParams_set params (fst entry) value
          | None => params
          end)
       data []).

(** [scopeString.split(' ').filter(Boolean)]. *)
Fixpoint splitOn (sep : ascii) (s : string) (current : string) : list string :=
  match s with
  | EmptyString => [current]
  | String c s' =>
      if Ascii.eqb c sep then current :: splitOn sep s' ""
      else splitOn sep s' (current ++ String c "")
  end.

Definition parseScopeString (scopeString : string) : list string :=
  filter (fun part => negb (String.eqb part "")) (splitOn " " scopeString "").

End Helpers.

(** ** The transport and HttpClient (utils/http.ts) *)

Module Http.
Import BigIntText Helpers.

Inductive Method : Type := GET | POST | PUT.

(** What is handed to [fetch]: the URL and the [RequestOptions]. *)
Record Request : Type := mkRequest {
  req_url : string;
  req_method : Method;
  req_headers : list (string * string);
  req_body : option string
}.

(** What [fetch] resolves to, as far as the client looks at it: a response
    that is [ok] or one that is not.  [contentType] is
    [headers.get('content-type')] and [json] is what [response.json()]
    resolves to: any JSON value, or [None] when it rejects because the body
    is not JSON text.  The cast [parsed as DiscordAPIError] checks nothing,
    so the body of an error response is as free as that of a success. *)
Inductive Response : Type :=
| OkResponse (status : Z) (statusText : string) (contentType : option string)
    (json : option Json)
| ErrorResponse (status : Z) (statusText : string) (contentType : option string)
    (json : option Json).

Definition ok (response : Response) : bool :=
  match response with
  | OkResponse _ _ _ _ => true
  | ErrorResponse _ _ _ _ => false
  end.

Definition status (response : Response) : Z :=
  match response with
  | OkResponse s _ _ _ | ErrorResponse s _ _ _ => s
  end.

Definition statusText (response : Response) : string :=
  match response with
  | OkResponse _ t _ _ | ErrorResponse _ t _ _ => t
  end.

Definition contentType (response : Response) : option string :=
  match response with
  | OkResponse _ _ ct _ | ErrorResponse _ _ ct _ => ct
  end.

(** [await response.json()] on each of the two paths; on the other path
    nothing is read. *)
Definition json (response : Response) : option Json :=
  match response with
  | OkResponse _ _ _ value => value
  | ErrorResponse _ _ _ _ => None
  end.

Definition errorJson (response : Response) : option Json :=
  match response with
  | OkResponse _ _ _ _ => None
  | ErrorResponse _ _ _ parsed => parsed
  end.

(** An [async] method: it returns, rejects, or hands a request to the
    transport and goes on with the response. *)
Inductive Prog (A : Type) : Type :=
| Ret (a : A)
| Reject (e : JsError)
| Fetch (req : Request) (k : Response -> Prog A).
Arguments Ret {A} a.
Arguments Reject {A} e.
Arguments Fetch {A} req k.

Fixpoint bindP {A B} (p : Prog A) (f : A -> Prog B) : Prog B :=
  match p with
  | Ret a => f a
  | Reject e => Reject e
  | Fetch req k => Fetch req (fun response => bindP (k response) f)
  end.

(** Running a method against a transport: the completion and the requests
    made, in order.  A transport that answers [None] fails at the
    connection level and the rejection of [fetch] is not caught. *)
Fixpoint run {A} (transport : Request -> option Response) (p : Prog A)
  : Completion A * list Request :=
  match p with
  | Ret a => (Normal a, [])
  | Reject e => (Threw e, [])
  | Fetch req k =>
      match transport req with
      | Some response =>
          let (c, log) := run transport (k response) in (c, req :: log)
      | None => (Threw NetworkError, [req])
      end
  end.

(** [String.prototype.includes]. *)
Fixpoint includes (s needle : string) : bool :=
  (if String.prefix needle s then true
   else match s with
        | EmptyString => false
        | String _ s' => includes s' needle
        end).

(** [contentType?.includes('application/json')], [undefined] being falsy. *)
Definition isJsonContentType (contentType : option string) : bool :=
  match contentType with
  | Some ct => includes ct "application/json"
  | None => false
  end.

(** [a || b] on optional strings: [undefined] and the empty string are falsy. *)
Definition orElse (a : option string) (b : string) : string :=
  match a with
  | Some s => if String.eqb s "" then b else s
  | None => b
  end.

(** ToBoolean on a JSON value: [null], [false], [0] and the empty string
    are falsy, every array and object is truthy. *)
Definition truthy (v : Json) : bool :=
  match v with
  | JNull => false
  | JBool b => b
  | JNumber n => negb (n =? 0)
  | JString s => negb (String.eqb s "")
  | JArray _ | JObject _ => true
  end.

(** The own property [key] of an object built by [JSON.parse]: of a
    repeated key the last occurrence is the one kept. *)
Fixpoint lookupProperty (fields : list (string * Json)) (key : string) : option Json :=
  match fields with
  | [] => None
  | (k, x) :: rest =>
      match lookupProperty rest key with
      | Some later => Some later
      | None => if String.eqb k key then Some x else None
      end
  end.

(** [value?.key] for the keys read here ([message], [code], [errors]), which
    no prototype defines: [undefined] unless [value] is an object with that
    own property. *)
Definition getProperty (value : option Json) (key : string) : option Json :=
  match value with
  | Some (JObject fields) => lookupProperty fields key
  | _ => None
  end.

(** ToString, which [Error(message)] applies to its argument.  A primitive
    has its text.  An array is joined by [Array.prototype.join], [null]
    elements giving the empty text.  An object goes through
    OrdinaryToPrimitive: [Object.prototype.toString] answers
    ["[object Object]"], unless the object has an own property [toString],
    which, coming from JSON, is not callable; [valueOf] then yields no
    primitive either and the conversion throws a [TypeError]. *)
Fixpoint ToString (v : Json) : Completion string :=
  match v with
  | JNull => Normal "null"
  | JBool true => Normal "true"
  | JBool false => Normal "false"
  | JNumber n => Normal (toString n)
  | JString s => Normal s
  | JArray items =>
      (fix joinItems (items : list Json) : Completion string :=
         match items with
         | [] => Normal ""
         | item :: rest =>
             let? first := match item with
                           | JNull => Normal ""
                           | _ => ToString item
                           end in
             match rest with
             | [] => Normal first
             | _ :: _ => let? others := joinItems rest in
                         Normal (first ++ "," ++ others)
             end
         end) items
  | JObject fields =>
      match lookupProperty fields "toString" with
      | Some _ => Threw TypeError
      | None => Normal "[object Object]"
      end
  end.

(** [a || b] on values. *)
Definition orElseValue (a : option Json) (b : Json) : Json :=
  match a with
  | Some v => if truthy v then v else b
  | None => b
  end.

(** [let errorData] ... [if (parsed) errorData = parsed] *)
Definition readErrorData (response : Response) : option Json :=
  if isJsonContentType (contentType response) then
    match errorJson response with
    | Some parsed => if truthy parsed then Some parsed else None
    | None => None
    end
  else None.

(** [errorData?.message || response.statusText || 'Unknown error'] *)
Definition errorMessageOf (errorData : option Json) (response : Response) : Json :=
  orElseValue (getProperty errorData "message")
    (orElseValue (Some (JString (statusText response))) (JString "Unknown error")).

(** [new DiscordAPIRequestError(message, statusCode, errorData)]: the
    constructor first calls [super(message)], which converts the message to
    a string, then stores [statusCode], [errorData?.code] and
    [errorData?.errors]. *)
Definition new_DiscordAPIRequestError (message : Json) (statusCode : Z)
    (errorData : option Json) : Completion JsError :=
  let? text := ToString message in
  Normal (DiscordAPIRequestError text statusCode
            (getProperty errorData "code") (getProperty errorData "errors")).

(** What [request] does with the response of [fetch]. *)
Definition handleResponse (response : Response) : Prog Json :=
  if negb (ok response) then
    let errorData := readErrorData response in
    let errorMessage := errorMessageOf errorData response in
    match new_DiscordAPIRequestError errorMessage (status response) errorData with
    | Normal error => Reject error
    | Threw thrown => Reject thrown
    end
  else if isJsonContentType (contentType response) then
    match json response with
    | Some value => Ret value
    | None => Reject SyntaxError
    end
  else Ret (JObject []).

Definition request (url : string) (method : Method) (headers : list (string * string))
    (body : option string) : Prog Json :=
  Fetch (mkRequest url method headers body) handleResponse.

Definition USER_AGENT : string :=
  "discord-oauth2 (https://github.com/0neShot101/discord-oauth2)".

(** [{ ...defaults, ...headers }]: the caller's headers are assigned over
    the defaults. *)
Definition spread (defaults headers : list (string * string)) : list (string * string) :=
  fold_left (fun obj entry => assign obj (fst entry) (snd entry)) headers defaults.

Definition get (url : string) (headers : list (string * string)) : Prog Json :=
  request url GET (spread [("User-Agent", USER_AGENT)] headers) None.

Definition post (url body : string) (headers : list (string * string)) : Prog Json :=
  request url POST
    (spread [("User-Agent", USER_AGENT);
             ("Content-Type", "application/x-www-form-urlencoded")] headers)
    (Some body).

Definition put (url body : string) (headers : list (string * string)) : Prog Json :=
  request url PUT
    (spread [("User-Agent", USER_AGENT); ("Content-Type", "application/json")] headers)
    (Some body).

End Http.

(** ** JSON.stringify, for the body of addUserToGuild *)

Module JSONText.
Import BigIntText Helpers.

(** QuoteJSONString: the quote and the backslash are escaped, control
    characters take their short escape or [\u00xx]. *)
Definition lowerHexDigit (d : nat) : ascii :=
  ascii_of_nat (if Nat.ltb d 10 then 48 + d else 87 + d).

Definition quoteChar (c : ascii) : string :=
  let n := nat_of_ascii c in
  if Nat.eqb n 34 then String "\" (String c "")
  else if Nat.eqb n 92 then String "\" (String c "")
  else if Nat.eqb n 8 then "\b"
  else if Nat.eqb n 9 then "\t"
  else if Nat.eqb n 10 then "\n"
  else if Nat.eqb n 12 then "\f"
  else if Nat.eqb n 13 then "\r"
  else if Nat.ltb n 32 then
    "\u00" ++ String (lowerHexDigit (Nat.div n 16)) (String (lowerHexDigit (Nat.modulo n 16)) "")
  else String c "".

Fixpoint quoteBody (s : string) : string :=
  match s with
  | EmptyString => ""
  | String c s' => quoteChar c ++ quoteBody s'
  end.

Definition quote (s : string) : string :=
  String (ascii_of_nat 34) (quoteBody s ++ String (ascii_of_nat 34) "").

Fixpoint stringify (v : Json) : string :=
  match v with
  | JNull => "null"
  | JBool true => "true"
  | JBool false => "false"
  | JNumber n => toString n
  | JString s => quote s
  | JArray items => "[" ++ join "," (map stringify items) ++ "]"
  | JObject fields =>
      "{" ++ join "," (map (fun kv : string * Json => let (k, x) := kv in quote k ++ ":" ++ stringify x) fields) ++ "}"
  end.

(** An object literal some of whose properties may be [undefined]:
    [JSON.stringify] leaves those out. *)
Fixpoint definedProperties (props : list (string * option Json)) : list (string * Json) :=
  match props with
  | [] => []
  | (k, Some v) :: rest => (k, v) :: definedProperties rest
  | (_, None) :: rest => definedProperties rest
  end.

Definition stringifyObject (props : list (string * option Json)) : string :=
  stringify (JObject (definedProperties props)).

End JSONText.

(** ** OAuth2Client (structures/client.ts) *)

Module Client.
Import BigIntText Helpers Http JSONText.

(** [OAuth2ClientOptions].  The three required properties are strings by
    their type; the constructor also guards against their absence, so each
    may be [undefined] here. *)
Record OAuth2ClientOptions : Type := mkOptions {
  opt_clientId : option string;
  opt_clientSecret : option string;
  opt_redirectUri : option string;
  opt_apiEndpoint : option string;
  opt_botToken : option string
}.

Record OAuth2Client : Type := mkClient {
  clientId : string;
  clientSecret : string;
  redirectUri : string;
  apiEndpoint : string;
  botToken : option string
}.

(** [!value] for a string that may be [undefined]. *)
Definition isFalsy (value : option string) : bool :=
  match value with
  | Some s => String.eqb s ""
  | None => true
  end.

Definition valueOr (value : option string) (default : string) : string :=
  match value with
  | Some s => s
  | None => default
  end.

Definition new_OAuth2Client (options : OAuth2ClientOptions) : Completion OAuth2Client :=
  if isFalsy (opt_clientId options) || isFalsy (opt_clientSecret options)
     || isFalsy (opt_redirectUri options)
  then Threw (ValidationError "clientId, clientSecret, and redirectUri are required")
  else Normal
    {| clientId := valueOr (opt_clientId options) "";
       clientSecret := valueOr (opt_clientSecret options) "";
       redirectUri := valueOr (opt_redirectUri options) "";
       apiEndpoint := orElse (opt_apiEndpoint options) DEFAULT_API_ENDPOINT;
       botToken := opt_botToken options |}.

(** [setBotToken] returns the client as the assignment leaves it. *)
Definition setBotToken (this : OAuth2Client) (token : string) : Completion OAuth2Client :=
  if isFalsy (Some token) then Threw (ValidationError "Bot token is required")
  else Normal
    {| clientId := clientId this;
       clientSecret := clientSecret this;
       redirectUri := redirectUri this;
       apiEndpoint := apiEndpoint this;
       botToken := Some token |}.

(** [AuthorizationUrlOptions]. *)
Record AuthorizationUrlOptions : Type := mkAuthOptions {
  auth_scopes : option (list string);
  auth_state : option string;
  auth_responseType : option string;
  auth_prompt : option string;
  auth_integrationType : option Z;
  auth_guildId : option string;
  auth_disableGuildSelect : option bool;
  auth_permissions : option NumberOrString
}.

Definition generateAuthUrl_params (this : OAuth2Client) (options : AuthorizationUrlOptions)
    (scopes : list string) : Params :=
  [ ("client_id", Some (PString (clientId this)));
    ("redirect_uri", Some (PString (redirectUri this)));
    ("response_type", Some (PString (orElse (auth_responseType options) "code")));
    ("scope", Some (PString (scopesToString scopes)));
    ("state", option_map PString (auth_state options));
    ("prompt", option_map PString (auth_prompt options));
    ("integration_type", option_map PNumber (auth_integrationType options));
    ("guild_id", option_map PString (auth_guildId options));
    ("disable_guild_select", option_map PBoolean (auth_disableGuildSelect options));
    ("permissions", option_map PString (normalizePermissions (auth_permissions options))) ].

Definition generateAuthUrl (this : OAuth2Client) (options : AuthorizationUrlOptions)
  : Completion string :=
  match auth_scopes options with
  | None | Some nil => Threw (ValidationError "At least one scope is required")
  | Some scopes =>
      Normal (buildUrl DISCORD_OAUTH2_URLS_AUTHORIZE (generateAuthUrl_params this options scopes))
  end.

(** [BotAuthorizationUrlOptions]; the call without an argument is the call
    with every property [undefined]. *)
Record BotAuthorizationUrlOptions : Type := mkBotOptions {
  bot_permissions : option NumberOrString;
  bot_guildId : option string;
  bot_disableGuildSelect : option bool;
  bot_scopes : option (list string);
  bot_state : option string
}.

Definition noBotOptions : BotAuthorizationUrlOptions := mkBotOptions None None None None None.

(** The record [params] of [generateBotAuthUrl] as it is handed to
    [buildUrl]. *)
Definition generateBotAuthUrl_params (this : OAuth2Client) (options : BotAuthorizationUrlOptions)
  : Params :=
  let scopes :=
    match bot_scopes options with
    | Some extra => "bot" :: extra
    | None => ["bot"]
    end in
  let params : Params :=
    [ ("client_id", Some (PString (clientId this)));
      ("scope", Some (PString (join " " scopes)));
      ("permissions", option_map PString (normalizePermissions (bot_permissions options)));
      ("guild_id", option_map PString (bot_guildId options));
      ("disable_guild_select", option_map PBoolean (bot_disableGuildSelect options));
      ("state", option_map PString (bot_state options)) ] in
  match bot_scopes options with
  | Some (_ :: _) =>
      assign (assign params "redirect_uri" (Some (PString (redirectUri this))))
        "response_type" (Some (PString "code"))
  | _ => params
  end.

Definition generateBotAuthUrl_url (this : OAuth2Client) (options : BotAuthorizationUrlOptions) : URL :=
  buildUrl_url DISCORD_OAUTH2_URLS_AUTHORIZE (generateBotAuthUrl_params this options).

Definition generateBotAuthUrl (this : OAuth2Client) (options : BotAuthorizationUrlOptions) : string :=
  buildUrl DISCORD_OAUTH2_URLS_AUTHORIZE (generateBotAuthUrl_params this options).

Definition basicAuthHeaders (this : OAuth2Client) : list (string * string) :=
  [("Authorization", encodeBasicAuth (clientId this) (clientSecret this))].

Definition bearerHeaders (accessToken : string) : list (string * string) :=
  [("Authorization", "Bearer " ++ accessToken)].

(** The scope hint of [exchangeCode] and [refreshToken] only narrows the
    static type of the result ([void options?.scopes]); it is not a
    parameter here. *)
Definition exchangeCode (this : OAuth2Client) (code : string) : Prog Json :=
  if isFalsy (Some code) then Reject (ValidationError "Authorization code is required")
  else
    let body := toFormUrlEncoded
      [ ("grant_type", Some "authorization_code");
        ("code", Some code);
        ("redirect_uri", Some (redirectUri this)) ] in
    post DISCORD_OAUTH2_URLS_TOKEN body (basicAuthHeaders this).

Definition refreshToken (this : OAuth2Client) (token : string) : Prog Json :=
  if isFalsy (Some token) then Reject (ValidationError "Refresh token is required")
  else
    let body := toFormUrlEncoded
      [ ("grant_type", Some "refresh_token");
        ("refresh_token", Some token) ] in
    post DISCORD_OAUTH2_URLS_TOKEN body (basicAuthHeaders this).

Definition getClientCredentials (this : OAuth2Client) (scopes : option (list string)) : Prog Json :=
  let body := toFormUrlEncoded
    [ ("grant_type", Some "client_credentials");
      ("scope", option_map (join " ") scopes) ] in
  post DISCORD_OAUTH2_URLS_TOKEN body (basicAuthHeaders this).

Definition revokeToken (this : OAuth2Client) (token : string) (tokenTypeHint : option string)
  : Prog unit :=
  if isFalsy (Some token) then Reject (ValidationError "Token is required")
  else
    let body := toFormUrlEncoded
      [ ("token", Some token);
        ("token_type_hint", tokenTypeHint) ] in
    bindP (post DISCORD_OAUTH2_URLS_TOKEN_REVOKE body (basicAuthHeaders this))
      (fun _ => Ret tt).

(** [AddGuildMemberOptions]; the call without options is the call with
    every property [undefined]. *)
Record AddGuildMemberOptions : Type := mkMemberOptions {
  member_nick : option string;
  member_roles : option (list string);
  member_mute : option bool;
  member_deaf : option bool
}.

Definition addUserToGuild_payload (userAccessToken : string) (options : AddGuildMemberOptions)
  : string :=
  stringifyObject
    [ ("access_token", Some (JString userAccessToken));
      ("nick", option_map JString (member_nick options));
      ("roles", option_map (fun roles => JArray (map JString roles)) (member_roles options));
      ("mute", option_map JBool (member_mute options));
      ("deaf", option_map JBool (member_deaf options)) ].

Definition addUserToGuild (this : OAuth2Client) (guildId userId userAccessToken : string)
    (options : AddGuildMemberOptions) : Prog unit :=
  if isFalsy (botToken this)
  then Reject (ValidationError "Bot token is required to add members to a guild")
  else if isFalsy (Some guildId) then Reject (ValidationError "Guild ID is required")
  else if isFalsy (Some userId) then Reject (ValidationError "User ID is required")
  else if isFalsy (Some userAccessToken)
  then Reject (ValidationError "User access token is required")
  else
    let payload := addUserToGuild_payload userAccessToken options in
    let headers := [("Authorization", "Bot " ++ valueOr (botToken this) "undefined")] in
    bindP (put (apiEndpoint this ++ "/guilds/" ++ guildId ++ "/members/" ++ userId) payload headers)
      (fun _ => Ret tt).

Definition getCurrentBotApplication (this : OAuth2Client) : Prog Json :=
  get (apiEndpoint this ++ "/oauth2/applications/@me") (basicAuthHeaders this).

Definition getCurrentAuthorizationInfo (this : OAuth2Client) (accessToken : string) : Prog Json :=
  if isFalsy (Some accessToken) then Reject (ValidationError "Access token is required")
  else get (apiEndpoint this ++ "/oauth2/@me") (bearerHeaders accessToken).

Definition getUser (this : OAuth2Client) (accessToken : string) : Prog Json :=
  if isFalsy (Some accessToken) then Reject (ValidationError "Access token is required")
  else get (apiEndpoint this ++ "/users/@me") (bearerHeaders accessToken).

Definition getUserGuilds (this : OAuth2Client) (accessToken : string) : Prog Json :=
  if isFalsy (Some accessToken) then Reject (ValidationError "Access token is required")
  else get (apiEndpoint this ++ "/users/@me/guilds") (bearerHeaders accessToken).

Definition getUserConnections (this : OAuth2Client) (accessToken : string) : Prog Json :=
  if isFalsy (Some accessToken) then Reject (ValidationError "Access token is required")
  else get (apiEndpoint this ++ "/users/@me/connections") (bearerHeaders accessToken).

Definition parseScopes (scopeString : string) : list string := parseScopeString scopeString.

End Client.

(** ** Vocabulary of the statements *)

Module Vocabulary.
Import BigIntText Permissions.

Definition isDigit (c : ascii) : bool :=
  let n := nat_of_ascii c in (Nat.leb 48 n && Nat.leb n 57)%bool.

Fixpoint allDigits (s : string) : bool :=
  match s with
  | EmptyString => true
  | String c s' => (isDigit c && allDigits s')%bool
  end.

(** The names of the enumeration, in the order of declaration. *)
Definition flagNames : list string := map fst PermissionFlags.

Definition memberOf (name : string) (names : list string) : bool :=
  existsb (String.eqb name) names.

(** A list of names of defined flags: a subset [S] of the enumeration,
    written in any order and possibly with repetitions. *)
Definition definedFlags (names : list string) : bool :=
  forallb (fun name => memberOf name flagNames) names.

(** The comparison [x == y] of JavaScript on values of type
    [string | bigint]: two strings or two bigints compare as such, and a
    string is compared with a bigint through [StringToBigInt], a text that
    is no numeral being unequal to every bigint. *)
Definition looselyEqual (x y : PermissionValue) : bool :=
  match x, y with
  | PermString s, PermString t => String.eqb s t
  | PermBigInt m, PermBigInt n => m =? n
  | PermString s, PermBigInt n | PermBigInt n, PermString s =>
      match StringToBigInt s with
      | Some m => m =? n
      | None => false
      end
  end.

(** Every value of the table is a power of two, and the bit of one entry is
    set in the value of no other name. *)
Definition flagTableCheck : bool :=
  forallb
    (fun entry =>
       let k := Z.log2 (snd entry) in
       (0 <=? k) && (snd entry =? 2 ^ k)
       && forallb
            (fun name => Bool.eqb (Z.testbit (flag name) k) (String.eqb (fst entry) name))
            flagNames)
    PermissionFlags.

(** The error message as the specification words it: the message field of
    the parsed JSON error body when there is a usable one, else the status
    text of the transport, else a generic text.  A body is usable when the
    response declares JSON, its text parses, and the value parsed is
    truthy. *)
Definition parsedErrorBody (response : Http.Response) : option Json :=
  match Http.contentType response, Http.errorJson response with
  | Some ct, Some parsed =>
      if Http.includes ct "application/json" && Http.truthy parsed
      then Some parsed else None
  | _, _ => None
  end.


(** The message of the usable body is as the interface [DiscordAPIError]
    declares it, or does not count: it is absent, a text, or a falsy value
    ([null], [false], [0]), which [||] passes over. *)
Definition messageConforms (response : Http.Response) : bool :=
  match Http.getProperty (parsedErrorBody response) "message" with
  | None | Some (JString _) => true
  | Some other => negb (Http.truthy other)
  end.


(** Reading a URL back, as [new URL(text).searchParams] does: the query is
    what follows the first question mark; it is cut at each [&], each
    non-empty piece is cut at its first [=], and in name and value a [+] is
    a space and [%XX] the byte of that code. *)
Fixpoint searchOf (url : string) : string :=
  match url with
  | EmptyString => ""
  | String c rest => if Ascii.eqb c "?" then rest else searchOf rest
  end.

Definition hexValue (c : ascii) : option nat :=
  let n := nat_of_ascii c in
  if (Nat.leb 48 n && Nat.leb n 57)%bool then Some (n - 48)%nat
  else if (Nat.leb 65 n && Nat.leb n 70)%bool then Some (n - 55)%nat
  else if (Nat.leb 97 n && Nat.leb n 102)%bool then Some (n - 87)%nat
  else None.

Fixpoint percentDecode (s : string) : string :=
  match s with
  | EmptyString => ""
  | String c s' =>
      if Ascii.eqb c "+" then String " " (percentDecode s')
      else if Ascii.eqb c "%" then
        match s' with
        | String h (String l rest) =>
            match hexValue h, hexValue l with
            | Some a, Some b => String (ascii_of_nat (16 * a + b)) (percentDecode rest)
            | _, _ => String c (percentDecode s')
            end
        | _ => String c (percentDecode s')
        end
      else String c (percentDecode s')
  end.

Fixpoint splitFirst (sep : ascii) (s : string) (before : string) : string * string :=
  match s with
  | EmptyString => (before, "")
  | String c s' =>
      if Ascii.eqb c sep then (before, s') else splitFirst sep s' (before ++ String c "")
  end.

Definition parseQuery (text : string) : list (string * string) :=
  map
    (fun piece =>
       let (name, value) := splitFirst "=" piece "" in
       (percentDecode name, percentDecode value))
    (filter (fun piece => negb (String.eqb piece "")) (Helpers.splitOn "&" text "")).

(** The search parameters of a URL given as text. *)
Definition queryOf (url : string) : list (string * string) := parseQuery (searchOf url).

Fixpoint noChar (sep : ascii) (s : string) : bool :=
  match s with
  | EmptyString => true
  | String c s' => (negb (Ascii.eqb c sep) && noChar sep s')%bool
  end.

(** The extra scopes of a bot-install call, none when the option is left
    out. *)
Definition extraScopes (options : Client.BotAuthorizationUrlOptions) : list string :=
  match Client.bot_scopes options with
  | Some extra => extra
  | None => []
  end.

(** The stub of the specification's last test: status 400 with the JSON body
    [{"message":"invalid_grant","code":5}]. *)
Definition invalidGrant : Http.Response :=
  Http.ErrorResponse 400 "Bad Request" (Some "application/json")
    (Some (JObject [("message", JString "invalid_grant"); ("code", JNumber 5)])).



Definition sampleClient : Client.OAuth2Client :=
  Client.mkClient "123" "secret" "https://app.example/callback" Helpers.DEFAULT_API_ENDPOINT (Some "bot-token").

(** A transport that answers every request with the same response. *)
Definition always (response : Http.Response) : Http.Request -> option Http.Response :=
  fun _ => Some response.

End Vocabulary.

(** ** Vocabulary of the further properties *)

Module Observations.
Import BigIntText Permissions Helpers Http JSONText Client Vocabulary.

(** The union of every flag of the enumeration. *)
Definition fullMask : Z := combine (map snd PermissionFlags).

Fixpoint allWhiteSpace (s : string) : bool :=
  match s with
  | EmptyString => true
  | String c s' => (isWhiteSpace c && allWhiteSpace s')%bool
  end.

(** Two lists of bigints with the same members, whatever the order and
    the repetitions. *)
Definition sameMembers (l1 l2 : list Z) : bool :=
  (forallb (fun v => existsb (Z.eqb v) l2) l1 && forallb (fun v => existsb (Z.eqb v) l1) l2)%bool.

(** The keys of an object are distinct. *)
Fixpoint distinct (keys : list string) : bool :=
  match keys with
  | [] => true
  | key :: rest => (negb (memberOf key rest) && distinct rest)%bool
  end.

(** The entries of an object whose value is not [undefined]. *)
Fixpoint definedEntries {V : Type} (entries : list (string * option V)) : list (string * V) :=
  match entries with
  | [] => []
  | (key, Some value) :: rest => (key, value) :: definedEntries rest
  | (_, None) :: rest => definedEntries rest
  end.

Definition definedParams (params : Params) : list (string * string) :=
  map (fun entry => (fst entry, String_of (snd entry))) (definedEntries params).

(** A query parameter that is there only when its value is given. *)
Definition optional (key : string) (value : option string) : list (string * string) :=
  match value with
  | Some text => [(key, text)]
  | None => []
  end.


(** A property of an object, [undefined] when it has none of that name. *)
Definition property (obj : list (string * string)) (key : string) : option string :=
  option_map snd (find (fun entry => String.eqb (fst entry) key) obj).

(** The text of the request error of a response that is not ok: that of
    the message of the usable body when it is truthy, whatever its type,
    else the status text, else a generic text.  A message that is an object
    with a property [toString] has no text, and the [TypeError] of the
    conversion takes the place of the request error. *)
Definition statusMessage (response : Response) : string :=
  match statusText response with
  | String c t => String c t
  | EmptyString => "Unknown error"
  end.

Definition raisedMessage (response : Response) : Completion string :=
  match getProperty (parsedErrorBody response) "message" with
  | Some message =>
      if truthy message then ToString message else Normal (statusMessage response)
  | None => Normal (statusMessage response)
  end.

(** What a method that awaits one request completes with, given what the
    transport answered: the failure of the connection, the request error
    of a response that is not ok (or the [TypeError] met in building it),
    the parsed JSON of one that is, the empty object when that one does
    not declare JSON, and a [SyntaxError] when it declares JSON that does
    not parse. *)
Definition settle (answer : option Response) : Completion Json :=
  match answer with
  | None => Threw NetworkError
  | Some response =>
      if ok response then
        if isJsonContentType (contentType response) then
          match json response with
          | Some value => Normal value
          | None => Threw SyntaxError
          end
        else Normal (JObject [])
      else
        match raisedMessage response with
        | Normal message =>
            Threw (DiscordAPIRequestError message (status response)
                     (getProperty (parsedErrorBody response) "code")
                     (getProperty (parsedErrorBody response) "errors"))
        | Threw thrown => Threw thrown
        end
  end.

(** The same for a method that discards the value. *)
Definition settleVoid (answer : option Response) : Completion unit :=
  match settle answer with
  | Normal _ => Normal tt
  | Threw e => Threw e
  end.

(** The headers of the three helpers and of the client's methods. *)
Definition formHeaders (authorization : string) : list (string * string) :=
  [ ("User-Agent", USER_AGENT);
    ("Content-Type", "application/x-www-form-urlencoded");
    ("Authorization", authorization) ].

Definition plainHeaders (authorization : string) : list (string * string) :=
  [ ("User-Agent", USER_AGENT); ("Authorization", authorization) ].

Definition jsonHeaders (authorization : string) : list (string * string) :=
  [ ("User-Agent", USER_AGENT);
    ("Content-Type", "application/json");
    ("Authorization", authorization) ].

(** Reading a JSON string back, from just after its opening quote: the
    text up to the closing quote with the escapes of [JSON.stringify]
    undone, and what follows the closing quote. *)
Definition doubleQuote : ascii := ascii_of_nat 34.
Definition backslash : ascii := ascii_of_nat 92.

Definition unescape (c : ascii) : option ascii :=
  if Ascii.eqb c doubleQuote then Some doubleQuote
  else if Ascii.eqb c backslash then Some backslash
  else if Ascii.eqb c "/" then Some "/"%char
  else if Ascii.eqb c "b" then Some (ascii_of_nat 8)
  else if Ascii.eqb c "t" then Some (ascii_of_nat 9)
  else if Ascii.eqb c "n" then Some (ascii_of_nat 10)
  else if Ascii.eqb c "f" then Some (ascii_of_nat 12)
  else if Ascii.eqb c "r" then Some (ascii_of_nat 13)
  else None.

Definition consRead (c : ascii) (r : option (string * string)) : option (string * string) :=
  match r with
  | Some (text, rest) => Some (String c text, rest)
  | None => None
  end.

Fixpoint readString (s : string) : option (string * string) :=
  match s with
  | EmptyString => None
  | String c s' =>
      if Ascii.eqb c doubleQuote then Some (EmptyString, s')
      else if Ascii.eqb c backslash then
        match s' with
        | String e s'' =>
            if Ascii.eqb e "u" then
              match s'' with
              | String z1 (String z2 (String h (String l rest))) =>
                  match hexValue h, hexValue l with
                  | Some a, Some b =>
                      if Ascii.eqb z1 "0" && Ascii.eqb z2 "0"
                      then consRead (ascii_of_nat (16 * a + b)) (readString rest)
                      else None
                  | _, _ => None
                  end
              | _ => None
              end
            else
              match unescape e with
              | Some x => consRead x (readString s'')
              | None => None
              end
        | EmptyString => None
        end
      else consRead c (readString s')
  end.

Fixpoint stripPrefix (prefix s : string) : option string :=
  match prefix, s with
  | EmptyString, _ => Some s
  | String a prefix', String b s' => if Ascii.eqb a b then stripPrefix prefix' s' else None
  | String _ _, EmptyString => None
  end.

(** The value of the first property of a payload of [addUserToGuild]. *)
Definition accessTokenOf (payload : string) : option string :=
  match stripPrefix ("{" ++ quote "access_token" ++ ":" ++ String doubleQuote "") payload with
  | Some after => option_map fst (readString after)
  | None => None
  end.

(** Decoding base64, as the receiver of a [Basic] header does. *)
Fixpoint indexOf (c : ascii) (s : string) : option nat :=
  match s with
  | EmptyString => None
  | String x s' => if Ascii.eqb x c then Some O else option_map S (indexOf c s')
  end.

Definition base64Index (c : ascii) : option nat := indexOf c base64Alphabet.

Fixpoint base64Decode (s : string) : option string :=
  match s with
  | EmptyString => Some EmptyString
  | String c0 (String c1 (String c2 (String c3 rest))) =>
      match base64Index c0, base64Index c1 with
      | Some i0, Some i1 =>
          let b0 := ascii_of_nat (i0 * 4 + Nat.div i1 16) in
          match base64Index c2 with
          | None =>
              if Ascii.eqb c2 "=" && Ascii.eqb c3 "=" && String.eqb rest ""
              then Some (String b0 "") else None
          | Some i2 =>
              let b1 := ascii_of_nat (Nat.modulo i1 16 * 16 + Nat.div i2 4) in
              match base64Index c3 with
              | None =>
                  if Ascii.eqb c3 "=" && String.eqb rest ""
                  then Some (String b0 (String b1 "")) else None
              | Some i3 =>
                  let b2 := ascii_of_nat (Nat.modulo i2 4 * 64 + i3) in
                  option_map (fun tail => String b0 (String b1 (String b2 tail)))
                    (base64Decode rest)
              end
          end
      | _, _ => None
      end
  | _ => None
  end.

(** The credentials a [Basic] header carries. *)
Definition basicCredentials (header : string) : option string :=
  match stripPrefix "Basic " header with
  | Some encoded => base64Decode encoded
  | None => None
  end.

End Observations.

(** * Properties *)

(** ** The decimal text of a bigint reads back as the bigint *)

Module BigIntTextFacts.
Import BigIntText Vocabulary.

Ltac each_ascii c :=
  destruct c as [[] [] [] [] [] [] [] []]; try reflexivity; try discriminate.

Lemma digitChar_isDigit d : 0 <= d < 10 -> isDigit (digitChar d) = true.
Proof.
  intros Hd.
  assert (Hc : d = 0 \/ d = 1 \/ d = 2 \/ d = 3 \/ d = 4 \/ d = 5 \/ d = 6
               \/ d = 7 \/ d = 8 \/ d = 9) by lia.
  repeat (destruct Hc as [-> | Hc]; [reflexivity |]).
  subst d; reflexivity.
Qed.

Lemma digitValue_digitChar d : 0 <= d < 10 -> digitValue 10 (digitChar d) = Some d.
Proof.
  intros Hd.
  assert (Hc : d = 0 \/ d = 1 \/ d = 2 \/ d = 3 \/ d = 4 \/ d = 5 \/ d = 6
               \/ d = 7 \/ d = 8 \/ d = 9) by lia.
  repeat (destruct Hc as [-> | Hc]; [reflexivity |]).
  subst d; reflexivity.
Qed.

Lemma isDigit_not_space c : isDigit c = true -> isWhiteSpace c = false.
Proof. each_ascii c. Qed.

Lemma isDigit_not_plus c : isDigit c = true -> Ascii.eqb c "+" = false.
Proof. each_ascii c. Qed.

Lemma isDigit_not_minus c : isDigit c = true -> Ascii.eqb c "-" = false.
Proof. each_ascii c. Qed.

Lemma isDigit_not_prefix c : isDigit c = true -> radixOfPrefix c = None.
Proof. each_ascii c. Qed.

(** The digits come out in front of the accumulator, and they are digits. *)
Lemma digitsOf_allDigits fuel : forall n acc,
  0 <= n -> allDigits acc = true -> allDigits (digitsOf fuel n acc) = true.
Proof.
  induction fuel as [| fuel IH]; intros n acc Hn Hacc; cbn [digitsOf].
  - exact Hacc.
  - assert (Hd : allDigits (String (digitChar (n mod 10)) acc) = true).
    { cbn [allDigits]. rewrite digitChar_isDigit, Hacc; [reflexivity |].
      apply Z.mod_pos_bound; lia. }
    destruct (n <? 10); [exact Hd |].
    apply IH; [apply Z.div_pos; lia | exact Hd].
Qed.

Lemma digitsOf_nonempty fuel : forall n acc,
  digitsOf (S fuel) n acc <> EmptyString.
Proof.
  induction fuel as [| fuel IH]; intros n acc.
  - cbn [digitsOf]. destruct (n <? 10); discriminate.
  - change (digitsOf (S (S fuel)) n acc)
      with (if n <? 10 then String (digitChar (n mod 10)) acc
            else digitsOf (S fuel) (n / 10) (String (digitChar (n mod 10)) acc)).
    destruct (n <? 10); [discriminate | apply IH].
Qed.

(** Reading the digits of [n] multiplies what was read so far by a power
    of ten and adds [n]. *)
Lemma parseDigits_digitsOf fuel : forall n acc,
  0 <= n < 10 ^ Z.of_nat fuel ->
  exists k, 0 <= k /\ forall a,
    parseDigits 10 (digitsOf fuel n acc) a = parseDigits 10 acc (a * 10 ^ k + n).
Proof.
  induction fuel as [| fuel IH]; intros n acc Hn.
  - exists 0. split; [lia |]. intros a. cbn [digitsOf].
    change (Z.of_nat 0) with 0 in Hn. rewrite Z.pow_0_r in *.
    replace (a * 1 + n) with a by lia. reflexivity.
  - cbn [digitsOf]. destruct (Z.ltb_spec n 10) as [Hlt | Hge].
    + exists 1. split; [lia |]. intros a. cbn [parseDigits].
      rewrite digitValue_digitChar by (apply Z.mod_pos_bound; lia).
      rewrite Z.mod_small by lia. rewrite Z.pow_1_r. reflexivity.
    + destruct (IH (n / 10) (String (digitChar (n mod 10)) acc)) as (k & Hk & Hparse).
      { split; [apply Z.div_pos; lia |].
        apply Z.div_lt_upper_bound; [lia |].
        rewrite Nat2Z.inj_succ, Z.pow_succ_r in Hn by lia. lia. }
      exists (k + 1). split; [lia |]. intros a.
      rewrite Hparse. cbn [parseDigits].
      rewrite digitValue_digitChar by (apply Z.mod_pos_bound; lia).
      f_equal. rewrite Z.pow_add_r, Z.pow_1_r by lia.
      pose proof (Z.div_mod n 10). lia.
Qed.

Lemma digitFuel_enough n : 0 <= n -> n < 10 ^ Z.of_nat (digitFuel n).
Proof.
  intros Hn. unfold digitFuel.
  rewrite Nat2Z.inj_succ, Z2Nat.id by apply Z.log2_nonneg.
  destruct (Z.eq_dec n 0) as [-> | Hnz].
  - reflexivity.
  - pose proof (Z.log2_spec n ltac:(lia)) as [_ Hup].
    pose proof (Z.log2_nonneg n).
    assert (2 ^ Z.succ (Z.log2 n) <= 10 ^ Z.succ (Z.log2 n))
      by (apply Z.pow_le_mono_l; lia).
    lia.
Qed.

Lemma trimStart_digits s : allDigits s = true -> trimStart s = s.
Proof.
  destruct s as [| c s]; cbn [trimStart allDigits]; [reflexivity |].
  intros H. apply andb_prop in H as [Hc _].
  rewrite (isDigit_not_space _ Hc). reflexivity.
Qed.

Lemma trimEnd_digits s : allDigits s = true -> trimEnd s = s.
Proof.
  induction s as [| c s IH]; cbn [trimEnd allDigits]; [reflexivity |].
  intros H. apply andb_prop in H as [Hc Hs].
  rewrite (IH Hs). destruct s; [| reflexivity].
  rewrite (isDigit_not_space _ Hc). reflexivity.
Qed.

Lemma nonDecimalLiteral_digits s : allDigits s = true -> nonDecimalLiteral s = None.
Proof.
  destruct s as [| z [| p ds]]; cbn [nonDecimalLiteral allDigits]; try reflexivity.
  intros H. apply andb_prop in H as [_ H]. apply andb_prop in H as [Hp _].
  rewrite (isDigit_not_prefix _ Hp). destruct (Ascii.eqb z "0"); reflexivity.
Qed.

(** A non-empty run of decimal digits is read as a decimal numeral. *)
Lemma StringToBigInt_digits s :
  allDigits s = true -> s <> EmptyString -> StringToBigInt s = parseDigits 10 s 0.
Proof.
  intros Hd Hne. unfold StringToBigInt.
  rewrite (trimStart_digits _ Hd), (trimEnd_digits _ Hd).
  rewrite (nonDecimalLiteral_digits _ Hd).
  destruct s as [| c s]; [congruence |].
  cbn [allDigits] in Hd. apply andb_prop in Hd as [Hc _].
  rewrite (isDigit_not_plus _ Hc), (isDigit_not_minus _ Hc). reflexivity.
Qed.

Lemma parse_magnitude n :
  0 <= n ->
  let ds := digitsOf (digitFuel n) n "" in
  allDigits ds = true /\ ds <> EmptyString /\ parseDigits 10 ds 0 = Some n.
Proof.
  intros Hn ds. split; [| split].
  - apply digitsOf_allDigits; [exact Hn | reflexivity].
  - apply digitsOf_nonempty.
  - destruct (parseDigits_digitsOf (digitFuel n) n "") as (k & _ & Hparse).
    { split; [exact Hn | apply digitFuel_enough; exact Hn]. }
    subst ds. rewrite Hparse. reflexivity.
Qed.

(** [BigInt(n.toString())] is [n], whatever the size and sign of [n]. *)
Lemma StringToBigInt_toString n : StringToBigInt (toString n) = Some n.
Proof.
  unfold toString. destruct (Z.ltb_spec n 0) as [Hneg | Hpos].
  - destruct (parse_magnitude (- n) ltac:(lia)) as (Hd & Hne & Hparse).
    set (ds := digitsOf (digitFuel (- n)) (- n) "") in *.
    unfold StringToBigInt.
    assert (Ht : trimEnd (trimStart (String "-" ds)) = String "-" ds).
    { change (trimStart (String "-" ds)) with (String "-" ds).
      cbn [trimEnd]. rewrite (trimEnd_digits _ Hd).
      destruct ds; [congruence | reflexivity]. }
    rewrite Ht. cbv beta zeta iota.
    change (Ascii.eqb "-" "+") with false. change (Ascii.eqb "-" "-") with true.
    cbv iota. unfold parseNumeral.
    destruct ds; [congruence |]. rewrite Hparse. cbn [option_map]. f_equal. lia.
  - destruct (parse_magnitude n Hpos) as (Hd & Hne & Hparse).
    rewrite (StringToBigInt_digits _ Hd Hne). exact Hparse.
Qed.

Lemma BigInt_toString n : BigInt (toString n) = Normal n.
Proof. unfold BigInt. rewrite StringToBigInt_toString. reflexivity. Qed.

End BigIntTextFacts.

(** ** The permission functions *)

Module PermissionFacts.
Import BigIntText Permissions Vocabulary BigIntTextFacts.

Lemma collectFlags_filter perms entries :
  collectFlags perms entries
  = map fst (filter (fun entry => Z.land perms (snd entry) =? snd entry) entries).
Proof.
  unfold collectFlags.
  assert (Hgen : forall acc,
    fold_left
      (fun flags entry =>
         if Z.land perms (snd entry) =? snd entry then (flags ++ [fst entry])%list else flags)
      entries acc
    = (acc ++ map fst (filter (fun entry => Z.land perms (snd entry) =? snd entry) entries))%list).
  { induction entries as [| e entries IH]; intros acc; cbn [fold_left filter].
    - cbn [map]. rewrite app_nil_r. reflexivity.
    - rewrite IH. destruct (Z.land perms (snd e) =? snd e); [| reflexivity].
      cbn [map]. rewrite <- app_assoc. reflexivity. }
  apply (Hgen []).
Qed.

Lemma map_fst_filter {A B} (p : A -> bool) (l : list (A * B)) :
  map fst (filter (fun entry => p (fst entry)) l) = filter p (map fst l).
Proof.
  induction l as [| e l IH]; cbn [filter map]; [reflexivity |].
  destruct (p (fst e)); cbn [map]; rewrite IH; reflexivity.
Qed.

(** A bit of the union is a bit of one of the members. *)
Lemma combine_testbit values k :
  Z.testbit (combine values) k = existsb (fun v => Z.testbit v k) values.
Proof.
  unfold combine.
  assert (Hgen : forall acc,
    Z.testbit (fold_left (fun a perm => Z.lor a perm) values acc) k
    = (Z.testbit acc k || existsb (fun v => Z.testbit v k) values)%bool).
  { induction values as [| v values IH]; intros acc; cbn [fold_left existsb].
    - rewrite orb_false_r. reflexivity.
    - rewrite IH, Z.lor_spec, orb_assoc. reflexivity. }
  rewrite Hgen. rewrite Z.testbit_0_l. reflexivity.
Qed.

Lemma existsb_map {A B} (f : A -> B) (p : B -> bool) l :
  existsb p (map f l) = existsb (fun x => p (f x)) l.
Proof.
  induction l as [| x l IH]; cbn [map existsb]; [reflexivity |].
  rewrite IH. reflexivity.
Qed.

Lemma existsb_ext_in {A} (p q : A -> bool) l :
  (forall x, In x l -> p x = q x) -> existsb p l = existsb q l.
Proof.
  induction l as [| x l IH]; intros H; cbn [existsb]; [reflexivity |].
  rewrite (H x (or_introl eq_refl)), IH; [reflexivity |].
  intros y Hy. apply H. right. exact Hy.
Qed.

(** The AND-equality test against a single bit reads that bit. *)
Lemma land_pow2_test c k : 0 <= k -> (Z.land c (2 ^ k) =? 2 ^ k) = Z.testbit c k.
Proof.
  intros Hk. destruct (Z.testbit c k) eqn:Hbit.
  - apply Z.eqb_eq. apply Z.bits_inj'. intros i Hi.
    rewrite Z.land_spec, Z.pow2_bits_eqb by exact Hk.
    destruct (Z.eqb_spec k i) as [<- | _].
    + rewrite Hbit. reflexivity.
    + apply andb_false_r.
  - apply Z.eqb_neq. intros Heq.
    assert (Hk' : Z.testbit (Z.land c (2 ^ k)) k = true).
    { rewrite Heq, Z.pow2_bits_eqb by exact Hk. apply Z.eqb_refl. }
    rewrite Z.land_spec, Hbit in Hk'. discriminate.
Qed.

(** The AND-equality test is the inclusion of the bits of the flag. *)
Lemma land_eq_iff_bits set flag :
  Z.land set flag = flag
  <-> (forall i, 0 <= i -> Z.testbit flag i = true -> Z.testbit set i = true).
Proof.
  split.
  - intros Heq i _ Hi. rewrite <- Heq, Z.land_spec in Hi.
    apply andb_prop in Hi as [Hs _]. exact Hs.
  - intros H. apply Z.bits_inj'. intros i Hi. rewrite Z.land_spec.
    destruct (Z.testbit flag i) eqn:Hf.
    + rewrite (H i Hi Hf). reflexivity.
    + apply andb_false_r.
Qed.

Lemma flagTableCheck_holds : flagTableCheck = true.
Proof. vm_compute. reflexivity. Qed.

Lemma flag_entry entry :
  In entry PermissionFlags ->
  exists k, 0 <= k /\ snd entry = 2 ^ k
    /\ forall name, In name flagNames ->
         Z.testbit (flag name) k = String.eqb (fst entry) name.
Proof.
  intros Hin. pose proof flagTableCheck_holds as Hcheck.
  unfold flagTableCheck in Hcheck. rewrite forallb_forall in Hcheck.
  specialize (Hcheck entry Hin). cbv zeta in Hcheck.
  apply andb_prop in Hcheck as [Hcheck Hnames].
  apply andb_prop in Hcheck as [Hk Hpow].
  exists (Z.log2 (snd entry)). split; [apply Z.leb_le; exact Hk |].
  split; [apply Z.eqb_eq; exact Hpow |].
  intros name Hname. rewrite forallb_forall in Hnames.
  apply Bool.eqb_prop. apply Hnames. exact Hname.
Qed.

Lemma definedFlags_In names name :
  definedFlags names = true -> In name names -> In name flagNames.
Proof.
  intros Hdef Hin. unfold definedFlags in Hdef. rewrite forallb_forall in Hdef.
  specialize (Hdef name Hin). unfold memberOf in Hdef.
  apply existsb_exists in Hdef as (m & Hm & Heq).
  apply String.eqb_eq in Heq. subst m. exact Hm.
Qed.

(** The test of [getPermissionFlags] on an entry of the table, against the
    union of the values of defined flags, is membership of its name. *)
Lemma flag_test_member names entry :
  definedFlags names = true -> In entry PermissionFlags ->
  (Z.land (combine (map flag names)) (snd entry) =? snd entry) = memberOf (fst entry) names.
Proof.
  intros Hdef Hin. destruct (flag_entry entry Hin) as (k & Hk & Hpow & Hbits).
  rewrite Hpow, (land_pow2_test _ _ Hk), combine_testbit, existsb_map.
  unfold memberOf. apply existsb_ext_in. intros name Hname.
  apply Hbits. exact (definedFlags_In _ _ Hdef Hname).
Qed.

Lemma getPermissionFlags_toString n :
  getPermissionFlags (PermString (toString n)) = getPermissionFlags (PermBigInt n).
Proof.
  unfold getPermissionFlags. cbn [toPerms]. rewrite BigInt_toString. reflexivity.
Qed.

Lemma hasPermission_toString n flag :
  hasPermission (PermString (toString n)) flag = hasPermission (PermBigInt n) flag.
Proof.
  unfold hasPermission. cbn [toPerms]. rewrite BigInt_toString. reflexivity.
Qed.

(** C1.  For every subset S of the defined permission flags, given as a list
    of flag names in any order, [getPermissionFlags(calculatePermissions(S))]
    returns exactly the names of S in the order in which the enumeration
    declares them; the empty and the full subset are instances. *)
Theorem decompose_combine_subset (S : list string) :
  definedFlags S = true ->
  getPermissionFlags (PermString (calculatePermissions (map flag S)))
  = Normal (filter (fun name => memberOf name S) flagNames).
Proof.
  intros Hdef. unfold calculatePermissions.
  rewrite getPermissionFlags_toString.
  unfold getPermissionFlags. cbn [toPerms bindC]. f_equal.
  rewrite collectFlags_filter. unfold flagNames.
  rewrite <- map_fst_filter. f_equal.
  apply filter_ext_in. intros entry Hin.
  apply flag_test_member; assumption.
Qed.

Lemma decompose_combine_subset_witness :
  getPermissionFlags
    (PermString (calculatePermissions
       (map flag ["USE_EXTERNAL_APPS"; "KICK_MEMBERS"; "SEND_POLLS"; "KICK_MEMBERS"])))
  = Normal ["KICK_MEMBERS"; "SEND_POLLS"; "USE_EXTERNAL_APPS"]
  /\ getPermissionFlags (PermString (calculatePermissions (map flag []))) = Normal []
  /\ getPermissionFlags (PermString (calculatePermissions (map flag flagNames)))
     = Normal flagNames.
Proof.
  split; [| split].
  - exact (decompose_combine_subset
             ["USE_EXTERNAL_APPS"; "KICK_MEMBERS"; "SEND_POLLS"; "KICK_MEMBERS"] eq_refl).
  - exact (decompose_combine_subset [] eq_refl).
  - exact (decompose_combine_subset flagNames eq_refl).
Defined.

(** C3.  For every permission set and every flag argument, single-bit or
    combined, [hasPermission(set, flag)] returns true exactly when
    [(set AND flag) == flag], that is, exactly when every bit of [flag] is
    present in [set]: a conjunction test. *)
Theorem hasPermission_conjunction_test (set flag : Z) :
  exists b,
    hasPermission (PermBigInt set) flag = Normal b
    /\ (b = true <-> Z.land set flag = flag)
    /\ (b = true <->
        forall i, 0 <= i -> Z.testbit flag i = true -> Z.testbit set i = true).
Proof.
  exists (Z.land set flag =? flag). split; [reflexivity |].
  split; [apply Z.eqb_eq |].
  rewrite Z.eqb_eq. apply land_eq_iff_bits.
Qed.

(** A set that shares a bit with a two-bit flag without holding both does
    not have it. *)
Example hasPermission_needs_all_bits :
  hasPermission (PermBigInt (flag "KICK_MEMBERS"))
    (Z.lor (flag "KICK_MEMBERS") (flag "BAN_MEMBERS")) = Normal false
  /\ hasPermission (PermBigInt (Z.lor (flag "KICK_MEMBERS") (flag "BAN_MEMBERS")))
       (Z.lor (flag "KICK_MEMBERS") (flag "BAN_MEMBERS")) = Normal true.
Proof. split; reflexivity. Qed.

(** C8.  For every flag F (indeed every bigint), [calculatePermissions([F])]
    equals F: the value returned is the decimal text of F, the form that
    goes into a query string; it compares equal to F under [==]; and
    [BigInt] reads it back as exactly F, the integer on which
    [hasPermission] and [getPermissionFlags] compare. *)
Theorem calculatePermissions_single (F : Z) :
  calculatePermissions [F] = toString F
  /\ looselyEqual (PermString (calculatePermissions [F])) (PermBigInt F) = true
  /\ BigInt (calculatePermissions [F]) = Normal F
  /\ toPerms (PermString (calculatePermissions [F])) = toPerms (PermBigInt F).
Proof.
  assert (Hc : calculatePermissions [F] = toString F).
  { unfold calculatePermissions, combine. cbn [fold_left].
    rewrite Z.lor_0_l. reflexivity. }
  rewrite Hc. cbn [toPerms looselyEqual].
  rewrite BigInt_toString, StringToBigInt_toString, Z.eqb_refl.
  repeat split; reflexivity.
Qed.

Example calculatePermissions_single_flag :
  calculatePermissions [flag "USE_EXTERNAL_APPS"] = "1125899906842624"
  /\ BigInt "1125899906842624" = Normal (flag "USE_EXTERNAL_APPS").
Proof. split; vm_compute; reflexivity. Qed.

(** C9.  [hasPermission(x, 0)] is true for every permission set x, whether
    it is passed as a bigint or as its decimal text. *)
Theorem hasPermission_zero_flag (x : Z) :
  hasPermission (PermBigInt x) 0 = Normal true
  /\ hasPermission (PermString (toString x)) 0 = Normal true.
Proof.
  assert (H : hasPermission (PermBigInt x) 0 = Normal true).
  { unfold hasPermission. cbn [toPerms bindC]. rewrite Z.land_0_r. reflexivity. }
  split; [exact H |]. rewrite hasPermission_toString. exact H.
Qed.

(** C10.  A non-negative permission set passed as its decimal text gives the
    same results as the same set passed as a bigint, for [hasPermission]
    and for [getPermissionFlags], however many bits it has. *)
Theorem decimal_text_equivalent_to_bigint (s flag : Z) :
  0 <= s ->
  hasPermission (PermString (toString s)) flag = hasPermission (PermBigInt s) flag
  /\ getPermissionFlags (PermString (toString s)) = getPermissionFlags (PermBigInt s).
Proof.
  intros _. split.
  - apply hasPermission_toString.
  - apply getPermissionFlags_toString.
Qed.

Lemma decimal_text_equivalent_to_bigint_witness :
  0 <= 2 ^ 80 + 2 ^ 50 + 2048
  /\ hasPermission (PermString (toString (2 ^ 80 + 2 ^ 50 + 2048))) (2 ^ 50)
     = hasPermission (PermBigInt (2 ^ 80 + 2 ^ 50 + 2048)) (2 ^ 50)
  /\ getPermissionFlags (PermString (toString (2 ^ 80 + 2 ^ 50 + 2048)))
     = getPermissionFlags (PermBigInt (2 ^ 80 + 2 ^ 50 + 2048)).
Proof.
  assert (H : 0 <= 2 ^ 80 + 2 ^ 50 + 2048) by (vm_compute; discriminate).
  split; [exact H |].
  exact (decimal_text_equivalent_to_bigint (2 ^ 80 + 2 ^ 50 + 2048) (2 ^ 50) H).
Defined.

Example decimal_text_beyond_64_bits :
  toString (2 ^ 80 + 2 ^ 50 + 2048) = "1208925820740529081550848"
  /\ getPermissionFlags (PermString "1208925820740529081550848")
     = Normal ["SEND_MESSAGES"; "USE_EXTERNAL_APPS"].
Proof. split; vm_compute; reflexivity. Qed.

End PermissionFacts.

(** ** A serialized query reads back as the parameters it was made of *)

Module QueryFacts.
Import Helpers Vocabulary BigIntTextFacts.

Lemma append_assoc (a b c : string) : ((a ++ b) ++ c = a ++ (b ++ c))%string.
Proof.
  induction a as [| x a IH]; cbn [String.append]; [reflexivity |].
  rewrite IH. reflexivity.
Qed.

Lemma append_empty_r (a : string) : (a ++ "")%string = a.
Proof.
  induction a as [| x a IH]; cbn [String.append]; [reflexivity |].
  rewrite IH. reflexivity.
Qed.

Lemma noChar_app sep a b :
  noChar sep (a ++ b) = (noChar sep a && noChar sep b)%bool.
Proof.
  induction a as [| x a IH]; cbn [String.append noChar]; [reflexivity |].
  rewrite IH, andb_assoc. reflexivity.
Qed.

Lemma urlencodeByte_no_amp c : noChar "&" (urlencodeByte c) = true.
Proof. each_ascii c. Qed.

Lemma urlencodeByte_no_eq c : noChar "=" (urlencodeByte c) = true.
Proof. each_ascii c. Qed.

Lemma urlencode_no_amp s : noChar "&" (urlencode s) = true.
Proof.
  induction s as [| c s IH]; cbn [urlencode]; [reflexivity |].
  rewrite noChar_app, urlencodeByte_no_amp, IH. reflexivity.
Qed.

Lemma urlencode_no_eq s : noChar "=" (urlencode s) = true.
Proof.
  induction s as [| c s IH]; cbn [urlencode]; [reflexivity |].
  rewrite noChar_app, urlencodeByte_no_eq, IH. reflexivity.
Qed.

Lemma percentDecode_urlencodeByte c rest :
  percentDecode (urlencodeByte c ++ rest) = String c (percentDecode rest).
Proof. each_ascii c. Qed.

Lemma percentDecode_urlencode s : percentDecode (urlencode s) = s.
Proof.
  induction s as [| c s IH]; cbn [urlencode]; [reflexivity |].
  rewrite percentDecode_urlencodeByte, IH. reflexivity.
Qed.

Lemma splitOn_noChar sep a : forall rest current,
  noChar sep a = true ->
  splitOn sep (a ++ rest) current = splitOn sep rest (current ++ a).
Proof.
  induction a as [| x a IH]; intros rest current Ha.
  - rewrite append_empty_r. reflexivity.
  - cbn [noChar] in Ha. apply andb_prop in Ha as [Hx Ha].
    cbn [String.append splitOn].
    apply negb_true_iff in Hx. rewrite Hx.
    rewrite (IH _ _ Ha), append_assoc. reflexivity.
Qed.

Lemma splitFirst_noChar sep a : forall value before,
  noChar sep a = true ->
  splitFirst sep (a ++ String sep value) before = ((before ++ a)%string, value).
Proof.
  induction a as [| x a IH]; intros value before Ha.
  - cbn [String.append splitFirst]. rewrite Ascii.eqb_refl, append_empty_r. reflexivity.
  - cbn [noChar] in Ha. apply andb_prop in Ha as [Hx Ha].
    cbn [String.append splitFirst].
    apply negb_true_iff in Hx. rewrite Hx.
    rewrite (IH _ _ Ha), append_assoc. reflexivity.
Qed.

Lemma splitOn_join sep (pieces : list string) :
  pieces <> [] ->
  Forall (fun piece => noChar sep piece = true) pieces ->
  splitOn sep (join (String sep "") pieces) "" = pieces.
Proof.
  induction pieces as [| p pieces IH]; intros Hne Hall; [congruence |].
  inversion Hall as [| ? ? Hp Hrest]; subst.
  destruct pieces as [| p' pieces].
  - cbn [join]. rewrite <- (append_empty_r p) at 1.
    rewrite (splitOn_noChar _ _ _ _ Hp). reflexivity.
  - change (join (String sep "") (p :: p' :: pieces))
      with (p ++ String sep (join (String sep "") (p' :: pieces)))%string.
    rewrite (splitOn_noChar _ _ _ _ Hp). cbn [splitOn].
    rewrite Ascii.eqb_refl. cbn [String.append]. f_equal.
    apply IH; [discriminate | exact Hrest].
Qed.

Lemma pair_nonempty a c b : String.eqb (a ++ String c b) "" = false.
Proof. destruct a; reflexivity. Qed.

(** [parseQuery] undoes [serializeQuery]. *)
Lemma parseQuery_serializeQuery q : parseQuery (serializeQuery q) = q.
Proof.
  unfold parseQuery, serializeQuery.
  destruct q as [| kv q]; [reflexivity |].
  rewrite splitOn_join.
  - generalize (kv :: q). clear kv q. intros q.
    induction q as [| [k v] q IH]; cbn [map filter]; [reflexivity |].
    cbn [fst snd]. change ("=" ++ urlencode v)%string with (String "=" (urlencode v)).
    rewrite pair_nonempty. cbn [negb map].
    rewrite (splitFirst_noChar _ _ _ _ (urlencode_no_eq k)).
    change ("" ++ urlencode k)%string with (urlencode k).
    rewrite !percentDecode_urlencode, IH. reflexivity.
  - discriminate.
  - apply Forall_forall. intros piece Hin.
    apply in_map_iff in Hin as ([k v] & <- & _). cbn [fst snd].
    rewrite !noChar_app, urlencode_no_amp, urlencode_no_amp. reflexivity.
Qed.

End QueryFacts.

(** ** The HTTP helper and the client *)

Module ClientFacts.
Import BigIntText Helpers Http JSONText Client Vocabulary QueryFacts.

Lemma isFalsy_nonempty s : s <> "" -> isFalsy (Some s) = false.
Proof. intros H. cbn [isFalsy]. apply String.eqb_neq. exact H. Qed.

(** Once the response is there, [request] settles without another request. *)
Lemma handleResponse_settled response :
  (exists value, handleResponse response = Ret value)
  \/ (exists e, handleResponse response = Reject e).
Proof.
  unfold handleResponse. destruct (negb (ok response)).
  - right. cbv zeta.
    destruct (new_DiscordAPIRequestError _ (status response) _); eexists; reflexivity.
  - destruct (isJsonContentType (contentType response)).
    + destruct (json response); [left | right]; eexists; reflexivity.
    + left. eexists. reflexivity.
Qed.

Lemma run_settled {A B} transport (p : Prog A) (f : A -> Prog B) :
  ((exists value, p = Ret value) \/ (exists e, p = Reject e)) ->
  (forall value, exists b, f value = Ret b) ->
  exists outcome, run transport (bindP p f) = (outcome, []).
Proof.
  intros [[value ->] | [e ->]] Hf; cbn [bindP].
  - destruct (Hf value) as [b ->]. eexists. reflexivity.
  - eexists. reflexivity.
Qed.

(** A method that awaits one [request] and then returns makes exactly that
    one request, whatever the transport answers. *)
Lemma run_one_request {B} transport url method headers body (f : Json -> Prog B) :
  (forall value, exists b, f value = Ret b) ->
  exists outcome,
    run transport (bindP (request url method headers body) f)
    = (outcome, [mkRequest url method headers body]).
Proof.
  intros Hf. unfold request. cbn [bindP run].
  destruct (transport (mkRequest url method headers body)) as [response |].
  - destruct (run_settled transport (handleResponse response) f
                (handleResponse_settled response) Hf) as [outcome ->].
    eexists. reflexivity.
  - eexists. reflexivity.
Qed.

Lemma orElse_spec a b :
  orElse a b = match a with Some (String c m) => String c m | _ => b end.
Proof. destruct a as [[| c m] |]; reflexivity. Qed.

(** The error data [request] keeps is the usable body. *)
Lemma readErrorData_parsed response : readErrorData response = parsedErrorBody response.
Proof.
  unfold readErrorData, parsedErrorBody, isJsonContentType.
  destruct (contentType response) as [ct |];
    [destruct (includes ct "application/json") |];
    destruct (errorJson response) as [parsed |];
    try destruct (truthy parsed); reflexivity.
Qed.

(** The end of the [||] chain is a text. *)
Lemma statusText_orElse text :
  orElseValue (Some (JString text)) (JString "Unknown error")
  = JString (match text with String c t => String c t | EmptyString => "Unknown error" end).
Proof. destruct text; reflexivity. Qed.


Lemma readErrorData_absent response :
  isJsonContentType (contentType response) = false \/ errorJson response = None ->
  readErrorData response = None.
Proof.
  unfold readErrorData. intros [-> | ->]; [reflexivity |].
  destruct (isJsonContentType (contentType response)); reflexivity.
Qed.

(** A body that is not declared as JSON, or whose text does not parse,
    conforms: there is no message to look at. *)
Lemma absent_body_conforms response :
  isJsonContentType (contentType response) = false \/ errorJson response = None ->
  messageConforms response = true.
Proof.
  intros Habsent. unfold messageConforms.
  rewrite <- readErrorData_parsed, (readErrorData_absent _ Habsent). reflexivity.
Qed.


(** The text of an object literal opens with its first defined property. *)
Lemma stringifyObject_first key value props :
  exists rest,
    stringifyObject ((key, Some value) :: props)
    = ("{" ++ quote key ++ ":" ++ stringify value ++ rest)%string.
Proof.
  unfold stringifyObject. cbn [definedProperties stringify map].
  destruct (map (fun kv : string * Json => let (k, x) := kv in (quote k ++ ":" ++ stringify x)%string)
              (definedProperties props)) as [| next others].
  - exists "}". cbn [join]. rewrite !append_assoc. reflexivity.
  - exists ("," ++ join "," (next :: others) ++ "}")%string.
    cbn [join]. rewrite !append_assoc. reflexivity.
Qed.

(** C2 fails as stated: with an empty redirect URI the constructor throws,
    but what it throws is no [ConfigurationError]. *)
Lemma constructor_error_is_not_ConfigurationError :
  ~ (exists e,
       new_OAuth2Client (mkOptions (Some "id") (Some "secret") (Some "") None None) = Threw e
       /\ instanceOf e ClsConfigurationError = true).
Proof.
  intros (e & Hthrow & Hclass). cbv in Hthrow.
  injection Hthrow as <-. discriminate Hclass.
Qed.

(** C2, amended.  Constructing the client with a missing or empty client
    identifier, client secret or redirect URI throws a [ValidationError],
    and so does [setBotToken] with an empty value; a [ValidationError] is an
    [OAuth2Error] and not a [ConfigurationError].  Both calls are
    synchronous and have no access to the transport. *)
Theorem constructor_and_setter_raise_ValidationError options this :
  isFalsy (opt_clientId options) = true
  \/ isFalsy (opt_clientSecret options) = true
  \/ isFalsy (opt_redirectUri options) = true ->
  new_OAuth2Client options
  = Threw (ValidationError "clientId, clientSecret, and redirectUri are required")
  /\ setBotToken this "" = Threw (ValidationError "Bot token is required")
  /\ forall message,
       instanceOf (ValidationError message) ClsValidationError = true
       /\ instanceOf (ValidationError message) ClsOAuth2Error = true
       /\ instanceOf (ValidationError message) ClsConfigurationError = false.
Proof.
  intros H. split; [| split].
  - unfold new_OAuth2Client.
    destruct H as [-> | [-> | ->]]; rewrite ?orb_true_r; reflexivity.
  - reflexivity.
  - intros message. repeat split; reflexivity.
Qed.

Lemma constructor_and_setter_raise_ValidationError_witness :
  new_OAuth2Client (mkOptions (Some "id") (Some "secret") None None None)
  = Threw (ValidationError "clientId, clientSecret, and redirectUri are required")
  /\ setBotToken sampleClient "" = Threw (ValidationError "Bot token is required")
  /\ forall message,
       instanceOf (ValidationError message) ClsValidationError = true
       /\ instanceOf (ValidationError message) ClsOAuth2Error = true
       /\ instanceOf (ValidationError message) ClsConfigurationError = false.
Proof.
  exact (constructor_and_setter_raise_ValidationError
           (mkOptions (Some "id") (Some "secret") None None None) sampleClient
           (or_intror (or_intror eq_refl))).
Defined.

(** With the three required values present the constructor succeeds, and a
    non-empty bot token is stored. *)
Example constructor_accepts_configuration :
  new_OAuth2Client (mkOptions (Some "123") (Some "secret") (Some "https://app.example/callback") None None)
  = Normal (mkClient "123" "secret" "https://app.example/callback" DEFAULT_API_ENDPOINT None)
  /\ setBotToken sampleClient "other" = Normal
       (mkClient "123" "secret" "https://app.example/callback" DEFAULT_API_ENDPOINT (Some "other")).
Proof. split; reflexivity. Qed.

(** C4.  Without a bot credential [addUserToGuild] rejects with a
    [ValidationError] and the transport is never called.  With a bot
    credential and non-empty guild id, user id and access token it makes
    exactly one request, whatever the transport answers: a PUT to
    [{apiEndpoint}/guilds/{guild}/members/{user}] whose headers carry
    [Authorization: Bot {token}] and whose body is the JSON text of an object
    that opens with the access token supplied. *)
Theorem addUserToGuild_contract this guildId userId userAccessToken options transport :
  (isFalsy (botToken this) = true ->
   run transport (addUserToGuild this guildId userId userAccessToken options)
   = (Threw (ValidationError "Bot token is required to add members to a guild"), []))
  /\ (forall token,
        botToken this = Some token -> token <> "" ->
        guildId <> "" -> userId <> "" -> userAccessToken <> "" ->
        exists outcome rest,
          run transport (addUserToGuild this guildId userId userAccessToken options)
          = (outcome,
             [ mkRequest
                 (apiEndpoint this ++ "/guilds/" ++ guildId ++ "/members/" ++ userId)
                 PUT
                 [ ("User-Agent", USER_AGENT);
                   ("Content-Type", "application/json");
                   ("Authorization", "Bot " ++ token) ]
                 (Some (addUserToGuild_payload userAccessToken options)) ])
          /\ addUserToGuild_payload userAccessToken options
             = "{" ++ quote "access_token" ++ ":" ++ quote userAccessToken ++ rest).
Proof.
  split.
  - intros Hno. unfold addUserToGuild. rewrite Hno. reflexivity.
  - intros token Hbot Htoken Hguild Huser Haccess.
    unfold addUserToGuild. rewrite Hbot.
    rewrite !isFalsy_nonempty by assumption.
    cbn [valueOr]. unfold put.
    destruct (run_one_request transport
                (apiEndpoint this ++ "/guilds/" ++ guildId ++ "/members/" ++ userId) PUT
                (spread [("User-Agent", USER_AGENT); ("Content-Type", "application/json")]
                   [("Authorization", "Bot " ++ token)])
                (Some (addUserToGuild_payload userAccessToken options))
                (fun _ => Ret tt)) as [outcome Hrun].
    { intros _. exists tt. reflexivity. }
    destruct (stringifyObject_first "access_token" (JString userAccessToken)
                [ ("nick", option_map JString (member_nick options));
                  ("roles", option_map (fun roles => JArray (map JString roles))
                              (member_roles options));
                  ("mute", option_map JBool (member_mute options));
                  ("deaf", option_map JBool (member_deaf options)) ]) as [rest Hrest].
    exists outcome, rest. split; [exact Hrun | exact Hrest].
Qed.

Lemma addUserToGuild_contract_witness :
  run (always invalidGrant)
    (addUserToGuild (mkClient "123" "secret" "https://app.example/callback" DEFAULT_API_ENDPOINT None)
       "1" "2" "user-token" (mkMemberOptions None None None None))
  = (Threw (ValidationError "Bot token is required to add members to a guild"), [])
  /\ exists outcome rest,
       run (always invalidGrant)
         (addUserToGuild sampleClient "1" "2" "user-token" (mkMemberOptions (Some "nick") None None None))
       = (outcome,
          [ mkRequest "https://discord.com/api/v10/guilds/1/members/2" PUT
              [ ("User-Agent", USER_AGENT);
                ("Content-Type", "application/json");
                ("Authorization", "Bot bot-token") ]
              (Some (addUserToGuild_payload "user-token" (mkMemberOptions (Some "nick") None None None))) ])
       /\ addUserToGuild_payload "user-token" (mkMemberOptions (Some "nick") None None None)
          = "{" ++ quote "access_token" ++ ":" ++ quote "user-token" ++ rest.
Proof.
  split.
  - exact (proj1 (addUserToGuild_contract
                    (mkClient "123" "secret" "https://app.example/callback" DEFAULT_API_ENDPOINT None)
                    "1" "2" "user-token" (mkMemberOptions None None None None)
                    (always invalidGrant)) eq_refl).
  - exact (proj2 (addUserToGuild_contract sampleClient "1" "2" "user-token"
                    (mkMemberOptions (Some "nick") None None None)
                    (always invalidGrant))
             "bot-token" eq_refl ltac:(discriminate) ltac:(discriminate)
             ltac:(discriminate) ltac:(discriminate)).
Defined.

(** C5.  Each operation with a required argument rejects with a
    [ValidationError] when that argument is empty, and the transport is
    never called: [generateAuthUrl] with an empty (or missing) list of
    scopes throws at the call, and the [async] methods, whose check comes
    before anything is awaited, reject with no request made. *)
Theorem empty_argument_raises_ValidationError this transport
    state responseType prompt integrationType guildId disableGuildSelect permissions hint :
  generateAuthUrl this
    (mkAuthOptions (Some []) state responseType prompt integrationType guildId
       disableGuildSelect permissions)
  = Threw (ValidationError "At least one scope is required")
  /\ generateAuthUrl this
       (mkAuthOptions None state responseType prompt integrationType guildId
          disableGuildSelect permissions)
     = Threw (ValidationError "At least one scope is required")
  /\ run transport (exchangeCode this "")
     = (Threw (ValidationError "Authorization code is required"), [])
  /\ run transport (refreshToken this "")
     = (Threw (ValidationError "Refresh token is required"), [])
  /\ run transport (revokeToken this "" hint)
     = (Threw (ValidationError "Token is required"), [])
  /\ run transport (getCurrentAuthorizationInfo this "")
     = (Threw (ValidationError "Access token is required"), [])
  /\ run transport (getUser this "")
     = (Threw (ValidationError "Access token is required"), [])
  /\ run transport (getUserGuilds this "")
     = (Threw (ValidationError "Access token is required"), [])
  /\ run transport (getUserConnections this "")
     = (Threw (ValidationError "Access token is required"), []).
Proof. repeat split; reflexivity. Qed.

(** With the argument present the same operations do reach the transport. *)
Example exchangeCode_makes_one_request :
  snd (run (always invalidGrant) (exchangeCode sampleClient "abc"))
  = [ mkRequest DISCORD_OAUTH2_URLS_TOKEN POST
        [ ("User-Agent", USER_AGENT);
          ("Content-Type", "application/x-www-form-urlencoded");
          ("Authorization", "Basic MTIzOnNlY3JldA==") ]
        (Some "grant_type=authorization_code&code=abc&redirect_uri=https%3A%2F%2Fapp.example%2Fcallback") ].
Proof. vm_compute. reflexivity. Qed.




(** The specification's test: [refreshToken] against a transport answering
    400 with [{"message":"invalid_grant","code":5}]. *)
Example refreshToken_invalid_grant :
  fst (run (always invalidGrant) (refreshToken sampleClient "refresh"))
  = Threw (DiscordAPIRequestError "invalid_grant" 400 (Some (JNumber 5)) None).
Proof. vm_compute. reflexivity. Qed.

(** The fall-backs: a body that does not parse leaves the status text, and
    without a status text the generic message. *)
Example malformed_body_falls_back :
  fst (run (always (ErrorResponse 502 "Bad Gateway" (Some "application/json") None))
         (getUser sampleClient "token"))
  = Threw (DiscordAPIRequestError "Bad Gateway" 502 None None)
  /\ fst (run (always (ErrorResponse 502 "" (Some "text/html")
                           (Some (JObject [("message", JString "oops")]))))
            (getUser sampleClient "token"))
     = Threw (DiscordAPIRequestError "Unknown error" 502 None None).
Proof. split; vm_compute; reflexivity. Qed.

(** The parameters [generateBotAuthUrl] sets on the URL object. *)
Lemma generateBotAuthUrl_searchParams this options :
  let q := url_searchParams (generateBotAuthUrl_url this options) in
  generateBotAuthUrl this options
  = DISCORD_OAUTH2_URLS_AUTHORIZE ++ "?" ++ serializeQuery q
  /\ searchParams_get q "client_id" = Some (clientId this)
  /\ searchParams_get q "scope" = Some (join " " ("bot" :: extraScopes options))
  /\ searchParams_get q "permissions" = normalizePermissions (bot_permissions options)
  /\ match extraScopes options with
     | [] =>
         searchParams_get q "scope" = Some "bot"
         /\ searchParams_get q "redirect_uri" = None
         /\ searchParams_get q "response_type" = None
     | _ :: _ =>
         searchParams_get q "redirect_uri" = Some (redirectUri this)
         /\ searchParams_get q "response_type" = Some "code"
     end.
Proof.
  destruct options as [permissions guildId disableGuildSelect scopes state].
  unfold generateBotAuthUrl, buildUrl, URL_toString, generateBotAuthUrl_url,
    generateBotAuthUrl_params, buildUrl_url, extraScopes.
  cbn [bot_permissions bot_guildId bot_disableGuildSelect bot_scopes bot_state].
  destruct permissions as [[n | p] |], guildId, disableGuildSelect as [[] |],
    scopes as [[| scope more] |], state;
    cbv - [toString join String.append serializeQuery];
    repeat split; reflexivity.
Qed.

(** The text returned reads back as those parameters. *)
Lemma queryOf_generateBotAuthUrl this options :
  queryOf (generateBotAuthUrl this options)
  = url_searchParams (generateBotAuthUrl_url this options).
Proof.
  destruct (generateBotAuthUrl_searchParams this options) as [Htext _].
  cbv zeta in Htext. rewrite Htext. unfold queryOf.
  change (searchOf (DISCORD_OAUTH2_URLS_AUTHORIZE ++ "?"
            ++ serializeQuery (url_searchParams (generateBotAuthUrl_url this options))))
    with (serializeQuery (url_searchParams (generateBotAuthUrl_url this options))).
  apply parseQuery_serializeQuery.
Qed.


Example generateBotAuthUrl_default :
  generateBotAuthUrl sampleClient noBotOptions
  = "https://discord.com/oauth2/authorize?client_id=123&scope=bot"
  /\ queryOf "https://discord.com/oauth2/authorize?client_id=123&scope=bot"
     = [("client_id", "123"); ("scope", "bot")].
Proof. split; vm_compute; reflexivity. Qed.

Example generateBotAuthUrl_with_scopes :
  generateBotAuthUrl sampleClient
    (mkBotOptions (Some (NumberValue 8)) None None (Some ["identify"; "guilds"]) None)
  = "https://discord.com/oauth2/authorize?client_id=123&scope=bot+identify+guilds&permissions=8&redirect_uri=https%3A%2F%2Fapp.example%2Fcallback&response_type=code".
Proof. vm_compute. reflexivity. Qed.

End ClientFacts.

(** ** Further properties of the permission functions *)

Module PermissionLaws.
Import BigIntText Permissions Vocabulary Observations BigIntTextFacts PermissionFacts.

(** [PermissionFlags.NAME] is the value the table gives that name. *)
Lemma flag_of_entry entry : In entry PermissionFlags -> flag (fst entry) = snd entry.
Proof.
  intros Hin.
  assert (Hall : forallb (fun e => flag (fst e) =? snd e) PermissionFlags = true)
    by (vm_compute; reflexivity).
  rewrite forallb_forall in Hall. apply Z.eqb_eq. apply Hall. exact Hin.
Qed.

Lemma flagNames_entry name :
  In name flagNames -> In (name, flag name) PermissionFlags.
Proof.
  unfold flagNames. intros Hin. apply in_map_iff in Hin as ([n v] & Hname & Hin).
  cbn [fst] in Hname. subst n.
  pose proof (flag_of_entry _ Hin) as Hflag. cbn [fst snd] in Hflag.
  rewrite Hflag. exact Hin.
Qed.

Lemma memberOf_In name names : memberOf name names = true <-> In name names.
Proof.
  unfold memberOf. rewrite existsb_exists. split.
  - intros (m & Hm & Heq). apply String.eqb_eq in Heq. subst m. exact Hm.
  - intros Hin. exists name. split; [exact Hin | apply String.eqb_refl].
Qed.

(** A member of a union is contained in it. *)
Lemma land_combine_member values flag :
  In flag values -> Z.land (combine values) flag = flag.
Proof.
  intros Hin. apply land_eq_iff_bits. intros i _ Hbit.
  rewrite combine_testbit. apply existsb_exists. exists flag. split; assumption.
Qed.

(** Holding a union is holding each member. *)
Lemma land_combine_all perms values :
  Z.land perms (combine values) = combine values
  <-> (forall flag, In flag values -> Z.land perms flag = flag).
Proof.
  split.
  - intros Hall flag Hin. apply land_eq_iff_bits. intros i Hi Hbit.
    apply (proj1 (land_eq_iff_bits perms (combine values)) Hall i Hi).
    rewrite combine_testbit. apply existsb_exists. exists flag. split; assumption.
  - intros Hall. apply land_eq_iff_bits. intros i Hi Hbit.
    rewrite combine_testbit in Hbit. apply existsb_exists in Hbit as (flag & Hin & Hflag).
    exact (proj1 (land_eq_iff_bits perms flag) (Hall flag Hin) i Hi Hflag).
Qed.

(** The bits of the table: an entry has the one bit of its position. *)
Lemma entry_bit entry k :
  In entry PermissionFlags ->
  (Z.testbit (snd entry) k = true <-> 0 <= k /\ snd entry = 2 ^ k).
Proof.
  intros Hin. destruct (flag_entry entry Hin) as (j & Hj & Hpow & _).
  rewrite Hpow, Z.pow2_bits_eqb by exact Hj. split.
  - intros Heq. apply Z.eqb_eq in Heq. subst k. split; [exact Hj | reflexivity].
  - intros [Hk Heq]. apply Z.eqb_eq.
    apply (Z.pow_inj_r 2); [lia | exact Hj | exact Hk | exact Heq].
Qed.

Lemma fullMask_bit k :
  Z.testbit fullMask k = true
  <-> exists entry, In entry PermissionFlags /\ 0 <= k /\ snd entry = 2 ^ k.
Proof.
  unfold fullMask. rewrite combine_testbit, existsb_map, existsb_exists. split.
  - intros (entry & Hin & Hbit). exists entry. split; [exact Hin |].
    apply (entry_bit entry k Hin). exact Hbit.
  - intros (entry & Hin & Hk). exists entry. split; [exact Hin |].
    apply (entry_bit entry k Hin). exact Hk.
Qed.

(** The test of an entry reads the bit of its position. *)
Lemma entry_test perms (entry : string * Z) k :
  0 <= k -> snd entry = 2 ^ k ->
  (Z.land perms (snd entry) =? snd entry) = Z.testbit perms k.
Proof. intros Hk ->. apply land_pow2_test. exact Hk. Qed.

Lemma collectFlags_In perms name :
  In name (collectFlags perms PermissionFlags)
  <-> exists entry, In entry PermissionFlags /\ fst entry = name
        /\ (Z.land perms (snd entry) =? snd entry) = true.
Proof.
  rewrite collectFlags_filter, in_map_iff. split.
  - intros (entry & Hname & Hin). apply filter_In in Hin as [Hin Htest].
    exists entry. split; [exact Hin |]. split; [exact Hname | exact Htest].
  - intros (entry & Hin & Hname & Htest). exists entry. split; [exact Hname |].
    apply filter_In. split; [exact Hin | exact Htest].
Qed.

Lemma collectFlags_names perms :
  collectFlags perms PermissionFlags
  = filter (fun name => Z.land perms (flag name) =? flag name) flagNames.
Proof.
  rewrite collectFlags_filter. unfold flagNames.
  rewrite <- (map_fst_filter (fun name => Z.land perms (flag name) =? flag name)).
  apply (f_equal (map fst)). apply filter_ext_in. intros entry Hin.
  rewrite (flag_of_entry _ Hin). reflexivity.
Qed.

Lemma StringToBigInt_blank s : allWhiteSpace s = true -> StringToBigInt s = Some 0.
Proof.
  intros Hblank. unfold StringToBigInt.
  assert (Htrim : trimStart s = EmptyString).
  { induction s as [| c s IH]; [reflexivity |].
    cbn [allWhiteSpace] in Hblank. apply andb_prop in Hblank as [Hc Hs].
    cbn [trimStart]. rewrite Hc. exact (IH Hs). }
  rewrite Htrim. reflexivity.
Qed.

(** X1.  For a set built from defined flags, [hasPermission] answers for
    every defined flag whether it is one of them. *)
Theorem hasPermission_of_calculated (S : list string) (name : string) :
  definedFlags S = true ->
  memberOf name flagNames = true ->
  hasPermission (PermString (calculatePermissions (map flag S))) (flag name)
  = Normal (memberOf name S).
Proof.
  intros Hdef Hname. unfold calculatePermissions.
  rewrite hasPermission_toString. unfold hasPermission. cbn [toPerms bindC]. f_equal.
  apply memberOf_In in Hname.
  exact (flag_test_member S (name, flag name) Hdef (flagNames_entry name Hname)).
Qed.

Lemma hasPermission_of_calculated_witness :
  hasPermission (PermString (calculatePermissions (map flag ["SEND_MESSAGES"; "EMBED_LINKS"])))
    (flag "SEND_MESSAGES") = Normal true
  /\ hasPermission (PermString (calculatePermissions (map flag ["SEND_MESSAGES"; "EMBED_LINKS"])))
       (flag "ADMINISTRATOR") = Normal false.
Proof.
  split.
  - exact (hasPermission_of_calculated ["SEND_MESSAGES"; "EMBED_LINKS"] "SEND_MESSAGES"
             eq_refl eq_refl).
  - exact (hasPermission_of_calculated ["SEND_MESSAGES"; "EMBED_LINKS"] "ADMINISTRATOR"
             eq_refl eq_refl).
Defined.

(** X2.  [getPermissionFlags] returns, in the order of the enumeration,
    exactly the defined names whose flag [hasPermission] finds in the same
    value, whatever other bits the value has. *)
Theorem getPermissionFlags_agrees_with_hasPermission (p : PermissionValue) (perms : Z) :
  toPerms p = Normal perms ->
  exists names,
    getPermissionFlags p = Normal names
    /\ names = filter (fun name => Z.land perms (flag name) =? flag name) flagNames
    /\ forall name,
         In name names
         <-> (In name flagNames /\ hasPermission p (flag name) = Normal true).
Proof.
  intros Hp. exists (collectFlags perms PermissionFlags).
  unfold getPermissionFlags, hasPermission. rewrite Hp. cbn [bindC].
  split; [reflexivity |]. split; [apply collectFlags_names |].
  intros name. rewrite collectFlags_names, filter_In. split.
  - intros [Hin Htest]. split; [exact Hin | rewrite Htest; reflexivity].
  - intros [Hin Htest]. split; [exact Hin |]. injection Htest as Htest. exact Htest.
Qed.

Lemma getPermissionFlags_agrees_with_hasPermission_witness :
  exists names,
    getPermissionFlags (PermString " 0x803 ") = Normal names
    /\ names = filter (fun name => Z.land 2051 (flag name) =? flag name) flagNames
    /\ forall name,
         In name names
         <-> (In name flagNames
              /\ hasPermission (PermString " 0x803 ") (flag name) = Normal true).
Proof.
  exact (getPermissionFlags_agrees_with_hasPermission (PermString " 0x803 ") 2051 eq_refl).
Defined.

(** X3.  [calculatePermissions] depends only on which values its argument
    holds, not on their order or on repetitions. *)
Theorem calculatePermissions_same_members (l1 l2 : list Z) :
  sameMembers l1 l2 = true ->
  calculatePermissions l1 = calculatePermissions l2.
Proof.
  intros Hsame. unfold calculatePermissions. f_equal.
  unfold sameMembers in Hsame. apply andb_prop in Hsame as [H12 H21].
  rewrite forallb_forall in H12, H21.
  assert (Hsub : forall a b k,
            (forall v, In v a -> existsb (Z.eqb v) b = true) ->
            existsb (fun v => Z.testbit v k) a = true ->
            existsb (fun v => Z.testbit v k) b = true).
  { intros a b k Hab Ha. apply existsb_exists in Ha as (v & Hv & Hbit).
    specialize (Hab v Hv). apply existsb_exists in Hab as (w & Hw & Heq).
    apply Z.eqb_eq in Heq. subst w. apply existsb_exists. exists v.
    split; [exact Hw | exact Hbit]. }
  apply Z.bits_inj. intros k. rewrite !combine_testbit.
  apply Bool.eq_iff_eq_true. split; apply Hsub; assumption.
Qed.

Lemma calculatePermissions_same_members_witness :
  calculatePermissions [flag "SPEAK"; flag "CONNECT"; flag "SPEAK"]
  = calculatePermissions [flag "CONNECT"; flag "SPEAK"].
Proof.
  exact (calculatePermissions_same_members
           [flag "SPEAK"; flag "CONNECT"; flag "SPEAK"] [flag "CONNECT"; flag "SPEAK"]
           eq_refl).
Defined.

(** X4.  Asking [hasPermission] for a union of flags is asking it for each
    of them: the answer is true exactly when every one is held. *)
Theorem hasPermission_of_union (p : PermissionValue) (perms : Z) (flags : list Z) :
  toPerms p = Normal perms ->
  (hasPermission p (combine flags) = Normal true
   <-> forall flag, In flag flags -> hasPermission p flag = Normal true).
Proof.
  intros Hp. unfold hasPermission. rewrite Hp. cbn [bindC]. split.
  - intros Hall flag Hin. f_equal. apply Z.eqb_eq.
    injection Hall as Hall. apply Z.eqb_eq in Hall.
    exact (proj1 (land_combine_all perms flags) Hall flag Hin).
  - intros Hall. f_equal. apply Z.eqb_eq. apply land_combine_all.
    intros flag Hin. specialize (Hall flag Hin). injection Hall as Hall.
    apply Z.eqb_eq. exact Hall.
Qed.

Lemma hasPermission_of_union_witness :
  hasPermission (PermString "7") (combine [1; 4]) = Normal true
  <-> forall flag, In flag [1; 4] -> hasPermission (PermString "7") flag = Normal true.
Proof.
  exact (hasPermission_of_union (PermString "7") 7 [1; 4] eq_refl).
Defined.

(** X5.  Every value passed to [calculatePermissions] is held by the
    result. *)
Theorem calculated_holds_each_input (values : list Z) (flag : Z) :
  In flag values ->
  hasPermission (PermString (calculatePermissions values)) flag = Normal true.
Proof.
  intros Hin. unfold calculatePermissions.
  rewrite hasPermission_toString. unfold hasPermission. cbn [toPerms bindC].
  rewrite (land_combine_member _ _ Hin), Z.eqb_refl. reflexivity.
Qed.

Lemma calculated_holds_each_input_witness :
  hasPermission (PermString (calculatePermissions [2 ^ 50; 2 ^ 47; 3])) (2 ^ 47) = Normal true.
Proof.
  exact (calculated_holds_each_input [2 ^ 50; 2 ^ 47; 3] (2 ^ 47)
           (or_intror (or_introl eq_refl))).
Defined.

(** X6.  Decomposing a value and combining the flags found gives the value
    restricted to the bits of the enumeration; bits outside it (positions 47
    and 48, anything above 50) are dropped, and they do not change what
    [getPermissionFlags] returns. *)
Theorem recombined_is_masked (perms : Z) :
  exists names,
    getPermissionFlags (PermBigInt perms) = Normal names
    /\ calculatePermissions (map flag names) = toString (Z.land perms fullMask)
    /\ getPermissionFlags (PermBigInt (Z.land perms fullMask)) = Normal names.
Proof.
  exists (collectFlags perms PermissionFlags). split; [reflexivity |]. split.
  - unfold calculatePermissions. f_equal. apply Z.bits_inj. intros k.
    rewrite combine_testbit, existsb_map, Z.land_spec.
    apply Bool.eq_iff_eq_true. rewrite existsb_exists, andb_true_iff, fullMask_bit. split.
    + intros (name & Hname & Hbit).
      destruct (proj1 (collectFlags_In perms name) Hname) as (entry & Hin & Hfst & Htest).
      subst name. rewrite (flag_of_entry _ Hin) in Hbit.
      apply (entry_bit entry k Hin) in Hbit as [Hk Hpow].
      rewrite (entry_test perms entry k Hk Hpow) in Htest.
      split; [exact Htest |]. exists entry.
      split; [exact Hin |]. split; [exact Hk | exact Hpow].
    + intros (Hperm & entry & Hin & Hk & Hpow).
      exists (fst entry). split.
      * apply (proj2 (collectFlags_In perms (fst entry))).
        exists entry. split; [exact Hin |]. split; [reflexivity |].
        rewrite (entry_test perms entry k Hk Hpow). exact Hperm.
      * rewrite (flag_of_entry _ Hin). apply (proj2 (entry_bit entry k Hin)).
        split; [exact Hk | exact Hpow].
  - unfold getPermissionFlags. cbn [toPerms bindC]. apply (f_equal Normal).
    rewrite !collectFlags_filter. apply (f_equal (map fst)).
    apply filter_ext_in. intros entry Hin.
    destruct (flag_entry entry Hin) as (k & Hk & Hpow & _).
    rewrite !(entry_test _ entry k Hk Hpow), Z.land_spec.
    assert (Hmask : Z.testbit fullMask k = true).
    { apply (proj2 (fullMask_bit k)). exists entry.
      split; [exact Hin |]. split; [exact Hk | exact Hpow]. }
    rewrite Hmask, andb_true_r. reflexivity.
Qed.

Example undefined_bits_are_dropped :
  getPermissionFlags (PermBigInt (2 ^ 47 + 2 ^ 48 + 2 ^ 60 + 8)) = Normal ["ADMINISTRATOR"]
  /\ Z.land (2 ^ 47 + 2 ^ 48 + 2 ^ 60 + 8) fullMask = 8.
Proof. split; vm_compute; reflexivity. Qed.

(** X7.  A text of white space only, the empty text included, is read as
    no permissions: [getPermissionFlags] returns the empty list and
    [hasPermission] is true for the flag 0 alone; neither throws. *)
Theorem blank_text_is_no_permissions (s : string) (flag : Z) :
  allWhiteSpace s = true ->
  getPermissionFlags (PermString s) = Normal []
  /\ hasPermission (PermString s) flag = Normal (0 =? flag).
Proof.
  intros Hblank. unfold getPermissionFlags, hasPermission. cbn [toPerms].
  unfold BigInt. rewrite (StringToBigInt_blank _ Hblank). cbn [bindC].
  split; [reflexivity |]. rewrite Z.land_0_l. reflexivity.
Qed.

Lemma blank_text_is_no_permissions_witness :
  getPermissionFlags (PermString "") = Normal []
  /\ hasPermission (PermString "") (flag "ADMINISTRATOR") = Normal (0 =? flag "ADMINISTRATOR").
Proof.
  exact (blank_text_is_no_permissions "" (flag "ADMINISTRATOR") eq_refl).
Defined.

End PermissionLaws.

(** ** Further properties of the helpers *)

Module HelperLaws.
Import BigIntText Helpers Client Vocabulary Observations BigIntTextFacts QueryFacts PermissionLaws.

Lemma memberOf_app key (a b : list string) :
  memberOf key (a ++ b) = (memberOf key a || memberOf key b)%bool.
Proof. unfold memberOf. apply existsb_app. Qed.

(** Setting a name the parameters do not have appends the pair. *)
Lemma searchParams_set_fresh q key value :
  memberOf key (map fst q) = false ->
  searchParams_set q key value = (q ++ [(key, value)])%list.
Proof.
  induction q as [| [k v] q IH]; intros Hfresh; cbn [searchParams_set]; [reflexivity |].
  cbn [map fst memberOf existsb] in Hfresh. apply orb_false_iff in Hfresh as [Hk Hrest].
  rewrite String.eqb_sym in Hk. rewrite Hk. cbn [app]. f_equal. apply IH. exact Hrest.
Qed.

(** One [set] per defined entry of an object, whose keys are distinct, lists
    the defined entries in their order. *)
Lemma set_each_defined {V : Type} (text : V -> string) (data : list (string * option V)) :
  distinct (map fst data) = true ->
  forall q,
    (forall key, In key (map fst data) -> memberOf key (map fst q) = false) ->
    fold_left
      (fun params entry =>
         match snd entry with
         | Some value => searchParams_set params (fst entry) (text value)
         | None => params
         end)
      data q
    = (q ++ map (fun entry => (fst entry, text (snd entry))) (definedEntries data))%list.
Proof.
  induction data as [| [key value] data IH]; intros Hdistinct q Hfresh.
  - cbn [fold_left definedEntries map]. rewrite app_nil_r. reflexivity.
  - cbn [map fst distinct] in Hdistinct. apply andb_prop in Hdistinct as [Hkey Hdistinct].
    apply negb_true_iff in Hkey.
    cbn [fold_left snd fst]. destruct value as [value |].
    + rewrite searchParams_set_fresh by (apply Hfresh; left; reflexivity).
      rewrite (IH Hdistinct).
      * cbn [definedEntries map fst snd]. rewrite <- app_assoc. reflexivity.
      * intros other Hother. rewrite map_app, memberOf_app.
        rewrite (Hfresh other (or_intror Hother)). cbn [map fst memberOf existsb orb].
        rewrite orb_false_r. apply not_true_is_false. intros Heq.
        apply String.eqb_eq in Heq. subst other.
        apply (proj2 (memberOf_In key (map fst data))) in Hother. congruence.
    + rewrite (IH Hdistinct); [reflexivity |].
      intros other Hother. apply Hfresh. right. exact Hother.
Qed.

Lemma buildUrl_url_defined baseUrl params :
  distinct (map fst params) = true ->
  buildUrl_url baseUrl params = mkURL baseUrl (definedParams params).
Proof.
  intros Hdistinct. unfold buildUrl_url, definedParams.
  rewrite <- (app_nil_l (map _ (definedEntries params))).
  rewrite <- (set_each_defined String_of params Hdistinct []) by reflexivity.
  generalize (@nil (string * string)). induction params as [| entry params IH]; intros q.
  - reflexivity.
  - cbn [map fst distinct] in Hdistinct. apply andb_prop in Hdistinct as [_ Hdistinct].
    cbn [fold_left]. destruct (snd entry); cbn [url_base url_searchParams];
      apply (IH Hdistinct).
Qed.

Lemma queryOf_URL_toString q :
  queryOf (URL_toString (mkURL DISCORD_OAUTH2_URLS_AUTHORIZE q)) = q.
Proof.
  unfold URL_toString, queryOf. cbn [url_searchParams url_base].
  destruct q as [| kv q]; [reflexivity |].
  change (searchOf (DISCORD_OAUTH2_URLS_AUTHORIZE ++ "?" ++ serializeQuery (kv :: q)))
    with (serializeQuery (kv :: q)).
  apply parseQuery_serializeQuery.
Qed.

(** The pieces [split] cuts hold no separator. *)
Lemma splitOn_pieces sep s : forall current,
  noChar sep current = true ->
  Forall (fun piece => noChar sep piece = true) (splitOn sep s current).
Proof.
  induction s as [| c s IH]; intros current Hcurrent; cbn [splitOn].
  - constructor; [exact Hcurrent | constructor].
  - destruct (Ascii.eqb c sep) eqn:Hc.
    + constructor; [exact Hcurrent | apply IH; reflexivity].
    + apply IH. rewrite noChar_app, Hcurrent. cbn [noChar]. rewrite Hc. reflexivity.
Qed.

Lemma filter_all {A} (p : A -> bool) l : forallb p l = true -> filter p l = l.
Proof.
  induction l as [| x l IH]; cbn [forallb filter]; [reflexivity |].
  intros H. apply andb_prop in H as [Hx Hl]. rewrite Hx, (IH Hl). reflexivity.
Qed.

Lemma parseScopeString_join scopes :
  forallb (fun scope => negb (String.eqb scope "") && noChar " " scope) scopes = true ->
  parseScopeString (scopesToString scopes) = scopes.
Proof.
  intros Hscopes. unfold parseScopeString, scopesToString.
  destruct scopes as [| scope scopes]; [reflexivity |].
  rewrite (splitOn_join " " (scope :: scopes)).
  - apply filter_all. rewrite forallb_forall in *. intros piece Hin.
    specialize (Hscopes piece Hin). apply andb_prop in Hscopes as [Hne _]. exact Hne.
  - discriminate.
  - apply Forall_forall. intros piece Hin. rewrite forallb_forall in Hscopes.
    specialize (Hscopes piece Hin). apply andb_prop in Hscopes as [_ Hspace]. exact Hspace.
Qed.

Lemma parseScopeString_pieces s :
  forallb (fun scope => negb (String.eqb scope "") && noChar " " scope) (parseScopeString s)
  = true.
Proof.
  unfold parseScopeString. apply forallb_forall. intros piece Hin.
  apply filter_In in Hin as [Hin Hne]. rewrite Hne.
  pose proof (splitOn_pieces " " s "" eq_refl) as Hall.
  rewrite Forall_forall in Hall. exact (Hall piece Hin).
Qed.

(** X8.  The URL [buildUrl] makes from the authorize endpoint and an object
    of parameters reads back as the parameters that are not [undefined], in
    the order of the object, each value as [String] prints it, whatever
    characters the values hold; with no defined parameter the URL is the
    endpoint itself. *)
Theorem buildUrl_reads_back (params : Params) :
  distinct (map fst params) = true ->
  queryOf (buildUrl DISCORD_OAUTH2_URLS_AUTHORIZE params) = definedParams params
  /\ (definedParams params = [] ->
      buildUrl DISCORD_OAUTH2_URLS_AUTHORIZE params = DISCORD_OAUTH2_URLS_AUTHORIZE).
Proof.
  intros Hdistinct. unfold buildUrl. rewrite (buildUrl_url_defined _ _ Hdistinct). split.
  - apply queryOf_URL_toString.
  - intros ->. reflexivity.
Qed.

Lemma buildUrl_reads_back_witness :
  queryOf (buildUrl DISCORD_OAUTH2_URLS_AUTHORIZE
             [ ("state", Some (PString "a&b=c d%"));
               ("prompt", None);
               ("integration_type", Some (PNumber 1));
               ("disable_guild_select", Some (PBoolean true)) ])
  = definedParams
      [ ("state", Some (PString "a&b=c d%"));
        ("prompt", None);
        ("integration_type", Some (PNumber 1));
        ("disable_guild_select", Some (PBoolean true)) ]
  /\ (definedParams
        [ ("state", Some (PString "a&b=c d%"));
          ("prompt", None);
          ("integration_type", Some (PNumber 1));
          ("disable_guild_select", Some (PBoolean true)) ] = [] ->
      buildUrl DISCORD_OAUTH2_URLS_AUTHORIZE
        [ ("state", Some (PString "a&b=c d%"));
          ("prompt", None);
          ("integration_type", Some (PNumber 1));
          ("disable_guild_select", Some (PBoolean true)) ]
      = DISCORD_OAUTH2_URLS_AUTHORIZE).
Proof.
  exact (buildUrl_reads_back
           [ ("state", Some (PString "a&b=c d%"));
             ("prompt", None);
             ("integration_type", Some (PNumber 1));
             ("disable_guild_select", Some (PBoolean true)) ] eq_refl).
Defined.

Example buildUrl_escapes :
  buildUrl DISCORD_OAUTH2_URLS_AUTHORIZE
    [("state", Some (PString "a&b=c d%")); ("prompt", None)]
  = "https://discord.com/oauth2/authorize?state=a%26b%3Dc+d%25".
Proof. vm_compute. reflexivity. Qed.

Lemma formBody_defined (data : list (string * option string)) :
  distinct (map fst data) = true ->
  toFormUrlEncoded data = serializeQuery (definedEntries data).
Proof.
  intros Hdistinct. unfold toFormUrlEncoded.
  rewrite (set_each_defined (fun value => value) data Hdistinct []) by reflexivity.
  cbn [app]. f_equal.
  clear Hdistinct. induction data as [| [key [value |]] data IH];
    cbn [definedEntries map fst snd]; [reflexivity | rewrite IH; reflexivity | exact IH].
Qed.

(** X9.  The form body [toFormUrlEncoded] makes from an object reads back
    as the entries that are not [undefined], in the order of the object,
    whatever characters keys and values hold. *)
Theorem toFormUrlEncoded_reads_back (data : list (string * option string)) :
  distinct (map fst data) = true ->
  parseQuery (toFormUrlEncoded data) = definedEntries data.
Proof.
  intros Hdistinct. rewrite (formBody_defined data Hdistinct).
  apply parseQuery_serializeQuery.
Qed.

Lemma toFormUrlEncoded_reads_back_witness :
  parseQuery (toFormUrlEncoded
                [("token", Some "a+b/c=&d e"); ("token_type_hint", None); ("x y", Some "")])
  = definedEntries
      [("token", Some "a+b/c=&d e"); ("token_type_hint", None); ("x y", Some "")].
Proof.
  exact (toFormUrlEncoded_reads_back
           [("token", Some "a+b/c=&d e"); ("token_type_hint", None); ("x y", Some "")]
           eq_refl).
Defined.

(** X10.  Whatever the text, [parseScopeString] (and so
    [OAuth2Client.parseScopes]) returns scopes that are not empty and hold
    no space, and joining them with [scopesToString] and parsing again
    returns the same list. *)
Theorem parseScopeString_normalizes (s : string) :
  Forall (fun scope => scope <> "" /\ noChar " " scope = true) (parseScopes s)
  /\ parseScopeString (scopesToString (parseScopeString s)) = parseScopeString s.
Proof.
  pose proof (parseScopeString_pieces s) as Hpieces. split.
  - unfold parseScopes. apply Forall_forall. intros scope Hin.
    rewrite forallb_forall in Hpieces. specialize (Hpieces scope Hin).
    apply andb_prop in Hpieces as [Hne Hspace]. split; [| exact Hspace].
    apply negb_true_iff in Hne. apply String.eqb_neq. exact Hne.
  - apply parseScopeString_join. exact Hpieces.
Qed.

Example parseScopeString_examples :
  parseScopeString "identify email" = ["identify"; "email"]
  /\ parseScopeString "" = []
  /\ parseScopeString "  identify   guilds " = ["identify"; "guilds"].
Proof. repeat split; reflexivity. Qed.

(** X11.  A list of scopes, none of them empty or holding a space, survives
    [scopesToString] followed by [parseScopeString]. *)
Theorem scopes_round_trip (scopes : list string) :
  forallb (fun scope => negb (String.eqb scope "") && noChar " " scope) scopes = true ->
  parseScopeString (scopesToString scopes) = scopes.
Proof. apply parseScopeString_join. Qed.

Lemma scopes_round_trip_witness :
  parseScopeString (scopesToString ["identify"; "guilds.join"; "bot"])
  = ["identify"; "guilds.join"; "bot"].
Proof.
  exact (scopes_round_trip ["identify"; "guilds.join"; "bot"] eq_refl).
Defined.

(** The alphabet is read back by position. *)
Lemma base64Index_base64Char i :
  (i < 64)%nat -> base64Index (base64Char i) = Some i.
Proof.
  intros Hi.
  assert (Hall : forallb
                   (fun j => match base64Index (base64Char j) with
                             | Some k => Nat.eqb k j
                             | None => false
                             end)
                   (seq 0 64) = true) by (vm_compute; reflexivity).
  rewrite forallb_forall in Hall.
  specialize (Hall i (proj2 (in_seq 64 0 i) (conj (Nat.le_0_l i) Hi))).
  destruct (base64Index (base64Char i)) as [k |]; [| discriminate].
  apply Nat.eqb_eq in Hall. subst k. reflexivity.
Qed.

Lemma nat_of_ascii_bound a : (nat_of_ascii a < 256)%nat.
Proof. each_ascii a; cbv; repeat constructor. Qed.

Lemma sextets a b c :
  let x := nat_of_ascii a in
  let y := nat_of_ascii b in
  let z := nat_of_ascii c in
  (Nat.div x 4 < 64
   /\ Nat.modulo x 4 * 16 + Nat.div y 16 < 64
   /\ Nat.modulo y 16 * 4 + Nat.div z 64 < 64
   /\ Nat.modulo z 64 < 64
   /\ Nat.modulo x 4 * 16 < 64
   /\ Nat.modulo y 16 * 4 < 64
   /\ Nat.div x 4 * 4 + Nat.div (Nat.modulo x 4 * 16 + Nat.div y 16) 16 = x
   /\ Nat.modulo (Nat.modulo x 4 * 16 + Nat.div y 16) 16 * 16
      + Nat.div (Nat.modulo y 16 * 4 + Nat.div z 64) 4 = y
   /\ Nat.modulo (Nat.modulo y 16 * 4 + Nat.div z 64) 4 * 64 + Nat.modulo z 64 = z
   /\ Nat.div x 4 * 4 + Nat.div (Nat.modulo x 4 * 16) 16 = x
   /\ Nat.modulo (Nat.modulo x 4 * 16 + Nat.div y 16) 16 * 16
      + Nat.div (Nat.modulo y 16 * 4) 4 = y)%nat.
Proof.
  intros x y z.
  pose proof (nat_of_ascii_bound a) as Hx.
  pose proof (nat_of_ascii_bound b) as Hy.
  pose proof (nat_of_ascii_bound c) as Hz.
  fold x in Hx. fold y in Hy. fold z in Hz. clearbody x y z.
  pose proof (Nat.div_mod_eq x 4). pose proof (Nat.mod_upper_bound x 4 ltac:(discriminate)).
  pose proof (Nat.div_mod_eq y 16). pose proof (Nat.mod_upper_bound y 16 ltac:(discriminate)).
  pose proof (Nat.div_mod_eq z 64). pose proof (Nat.mod_upper_bound z 64 ltac:(discriminate)).
  set (x1 := Nat.div x 4) in *. set (x0 := Nat.modulo x 4) in *.
  set (y1 := Nat.div y 16) in *. set (y0 := Nat.modulo y 16) in *.
  set (z1 := Nat.div z 64) in *. set (z0 := Nat.modulo z 64) in *.
  assert (Hy1 : (y1 < 16)%nat) by lia.
  assert (Hz1 : (z1 < 4)%nat) by lia.
  assert (E1 : Nat.div (x0 * 16 + y1) 16 = x0)
    by (rewrite Nat.add_comm, Nat.div_add, (Nat.div_small y1 16) by lia; lia).
  assert (E2 : Nat.modulo (x0 * 16 + y1) 16 = y1)
    by (rewrite Nat.add_comm, Nat.Div0.mod_add, Nat.mod_small by lia; lia).
  assert (E3 : Nat.div (y0 * 4 + z1) 4 = y0)
    by (rewrite Nat.add_comm, Nat.div_add, (Nat.div_small z1 4) by lia; lia).
  assert (E4 : Nat.modulo (y0 * 4 + z1) 4 = z1)
    by (rewrite Nat.add_comm, Nat.Div0.mod_add, Nat.mod_small by lia; lia).
  assert (E5 : Nat.div (x0 * 16) 16 = x0) by (apply Nat.div_mul; discriminate).
  assert (E6 : Nat.div (y0 * 4) 4 = y0) by (apply Nat.div_mul; discriminate).
  rewrite E1, E2, E3, E4, E5, E6. repeat split; lia.
Qed.

Lemma base64Decode_base64 s : base64Decode (base64 s) = Some s.
Proof.
  assert (Hall : forall s,
            base64Decode (base64 s) = Some s
            /\ (forall a, base64Decode (base64 (String a s)) = Some (String a s))
            /\ (forall a b,
                  base64Decode (base64 (String a (String b s)))
                  = Some (String a (String b s)))).
  { clear s. induction s as [| c s (IH1 & IH2 & IH3)].
    - split; [reflexivity |]. split.
      + intros a. destruct (sextets a a a) as (H0 & _ & _ & _ & H1 & _ & _ & _ & _ & E & _).
        cbn [base64 base64Decode].
        rewrite (base64Index_base64Char _ H0), (base64Index_base64Char _ H1).
        change (base64Index "=") with (@None nat). cbn [andb]. cbv beta iota zeta.
        change (Ascii.eqb "=" "=") with true. change (String.eqb "" "") with true.
        cbn [andb]. rewrite E, ascii_nat_embedding. reflexivity.
      + intros a b.
        destruct (sextets a b b) as (H0 & H1 & _ & _ & _ & H2 & E0 & _ & _ & _ & E1).
        cbn [base64 base64Decode].
        rewrite (base64Index_base64Char _ H0), (base64Index_base64Char _ H1),
          (base64Index_base64Char _ H2).
        change (base64Index "=") with (@None nat). cbv beta iota zeta.
        change (Ascii.eqb "=" "=") with true. change (String.eqb "" "") with true.
        cbn [andb]. rewrite E0, E1, !ascii_nat_embedding. reflexivity.
    - split; [exact (IH2 c) |]. split; [intros a; exact (IH3 a c) |].
      intros a b.
      destruct (sextets a b c) as (H0 & H1 & H2 & H3 & _ & _ & E0 & E1 & E2 & _ & _).
      cbn [base64 base64Decode].
      rewrite (base64Index_base64Char _ H0), (base64Index_base64Char _ H1),
        (base64Index_base64Char _ H2), (base64Index_base64Char _ H3).
      cbv beta iota zeta. rewrite IH1. cbn [option_map].
      rewrite E0, E1, E2, !ascii_nat_embedding. reflexivity. }
  exact (proj1 (Hall s)).
Qed.

(** A name without the separator is cut off at the first separator. *)
Lemma splitFirst_name sep name value :
  noChar sep name = true ->
  splitFirst sep (name ++ String sep value) "" = (name, value).
Proof. intros Hname. apply (splitFirst_noChar sep name value "" Hname). Qed.

(** X12.  The [Authorization] value of [encodeBasicAuth] is ["Basic "]
    followed by base64 text that decodes to [clientId:clientSecret]; when
    the client id holds no colon, cutting the decoded text at its first
    colon gives back the id and the secret, whatever the secret holds. *)
Theorem encodeBasicAuth_decodes (clientId clientSecret : string) :
  noChar ":" clientId = true ->
  basicCredentials (encodeBasicAuth clientId clientSecret)
  = Some (clientId ++ ":" ++ clientSecret)
  /\ splitFirst ":" (clientId ++ ":" ++ clientSecret) "" = (clientId, clientSecret).
Proof.
  intros Hid. split.
  - unfold basicCredentials, encodeBasicAuth.
    change (stripPrefix "Basic " ("Basic " ++ base64 (clientId ++ ":" ++ clientSecret)))
      with (Some (base64 (clientId ++ ":" ++ clientSecret))).
    apply base64Decode_base64.
  - exact (splitFirst_name ":" clientId clientSecret Hid).
Qed.

Lemma encodeBasicAuth_decodes_witness :
  basicCredentials (encodeBasicAuth "1234567890" "s3:cret/+=")
  = Some ("1234567890" ++ ":" ++ "s3:cret/+=")
  /\ splitFirst ":" ("1234567890" ++ ":" ++ "s3:cret/+=") "" = ("1234567890", "s3:cret/+=").
Proof.
  exact (encodeBasicAuth_decodes "1234567890" "s3:cret/+=" eq_refl).
Defined.

End HelperLaws.

(** ** Further properties of the HTTP helper and of the client *)

Module ClientLaws.
Import BigIntText Permissions Helpers Http JSONText Client Vocabulary Observations.
Import BigIntTextFacts PermissionFacts QueryFacts ClientFacts PermissionLaws HelperLaws.

(** The text [Error] makes of the message [request] hands it. *)
Lemma errorMessageOf_raised response :
  ToString (errorMessageOf (readErrorData response) response) = raisedMessage response.
Proof.
  unfold errorMessageOf, raisedMessage, statusMessage.
  rewrite readErrorData_parsed, statusText_orElse.
  destruct (getProperty (parsedErrorBody response) "message") as [message |];
    cbn [orElseValue]; [| reflexivity].
  destruct (truthy message); reflexivity.
Qed.

(** One [request]: one entry in the log, and the completion the answer of
    the transport settles. *)
Lemma run_request url method headers body transport :
  run transport (request url method headers body)
  = (settle (transport (mkRequest url method headers body)),
     [mkRequest url method headers body]).
Proof.
  unfold request, settle. cbn [run].
  destruct (transport (mkRequest url method headers body)) as [response |]; [| reflexivity].
  unfold handleResponse. destruct (ok response); cbn [negb].
  - destruct (isJsonContentType (contentType response)); [| reflexivity].
    destruct (json response); reflexivity.
  - unfold new_DiscordAPIRequestError.
    rewrite errorMessageOf_raised, readErrorData_parsed.
    destruct (raisedMessage response); reflexivity.
Qed.

Lemma run_request_void url method headers body transport :
  run transport (bindP (request url method headers body) (fun _ => Ret tt))
  = (settleVoid (transport (mkRequest url method headers body)),
     [mkRequest url method headers body]).
Proof.
  unfold request, settleVoid, settle. cbn [bindP run].
  destruct (transport (mkRequest url method headers body)) as [response |]; [| reflexivity].
  unfold handleResponse. destruct (ok response); cbn [negb].
  - destruct (isJsonContentType (contentType response)); [| reflexivity].
    destruct (json response); reflexivity.
  - unfold new_DiscordAPIRequestError.
    rewrite errorMessageOf_raised, readErrorData_parsed.
    destruct (raisedMessage response); reflexivity.
Qed.

Lemma property_assign obj key value name :
  property (assign obj key value) name
  = if String.eqb key name then Some value else property obj name.
Proof.
  unfold property. induction obj as [| [k v] obj IH]; cbn [assign find fst].
  - destruct (String.eqb key name); reflexivity.
  - destruct (String.eqb k key) eqn:Hk; cbn [find fst].
    + apply String.eqb_eq in Hk. subst k.
      destruct (String.eqb key name); reflexivity.
    + destruct (String.eqb k name) eqn:Hname.
      * apply String.eqb_eq in Hname. subst name. rewrite String.eqb_sym, Hk. reflexivity.
      * exact IH.
Qed.

Lemma property_absent obj name :
  memberOf name (map fst obj) = false -> property obj name = None.
Proof.
  unfold property. induction obj as [| [k v] obj IH]; cbn [map fst memberOf existsb find];
    [reflexivity |].
  intros H. apply orb_false_iff in H as [Hk Hrest].
  rewrite String.eqb_sym, Hk. apply IH. exact Hrest.
Qed.

(** The caller's headers win over the defaults, which stay otherwise. *)
Lemma property_spread headers : forall defaults name,
  distinct (map fst headers) = true ->
  property (spread defaults headers) name
  = match property headers name with
    | Some value => Some value
    | None => property defaults name
    end.
Proof.
  unfold spread. induction headers as [| [k v] headers IH]; intros defaults name Hdistinct.
  - reflexivity.
  - cbn [map fst distinct] in Hdistinct. apply andb_prop in Hdistinct as [Hk Hdistinct].
    apply negb_true_iff in Hk. cbn [fold_left fst snd].
    rewrite (IH _ _ Hdistinct), property_assign.
    unfold property at 3. cbn [find fst].
    destruct (String.eqb k name) eqn:Hname.
    + apply String.eqb_eq in Hname. subst name.
      rewrite (property_absent headers k Hk). reflexivity.
    + reflexivity.
Qed.

Lemma stripPrefix_app prefix s : stripPrefix prefix (prefix ++ s) = Some s.
Proof.
  induction prefix as [| c prefix IH]; cbn [String.append stripPrefix].
  - destruct s; reflexivity.
  - rewrite Ascii.eqb_refl. exact IH.
Qed.

Lemma readString_quoteChar c tail :
  readString (quoteChar c ++ tail) = consRead c (readString tail).
Proof. each_ascii c. Qed.

(** A quoted text is read back up to its closing quote. *)
Lemma readString_quoteBody s rest :
  readString (quoteBody s ++ String doubleQuote rest) = Some (s, rest).
Proof.
  induction s as [| c s IH]; cbn [quoteBody].
  - reflexivity.
  - rewrite append_assoc, readString_quoteChar, IH. reflexivity.
Qed.

(** What [getPermissionFlags] makes of a value calculated from defined
    flags. *)
Lemma getPermissionFlags_calculated S :
  definedFlags S = true ->
  getPermissionFlags (PermString (calculatePermissions (map flag S)))
  = Normal (filter (fun name => memberOf name S) flagNames).
Proof.
  intros Hdef. unfold calculatePermissions. rewrite getPermissionFlags_toString.
  unfold getPermissionFlags. cbn [toPerms bindC]. apply (f_equal Normal).
  rewrite collectFlags_filter. unfold flagNames.
  rewrite <- map_fst_filter. apply (f_equal (map fst)).
  apply filter_ext_in. intros entry Hin. apply flag_test_member; assumption.
Qed.

Lemma spread_form authorization :
  spread [("User-Agent", USER_AGENT); ("Content-Type", "application/x-www-form-urlencoded")]
    [("Authorization", authorization)]
  = formHeaders authorization.
Proof. reflexivity. Qed.

Lemma spread_plain authorization :
  spread [("User-Agent", USER_AGENT)] [("Authorization", authorization)]
  = plainHeaders authorization.
Proof. reflexivity. Qed.

Lemma spread_json authorization :
  spread [("User-Agent", USER_AGENT); ("Content-Type", "application/json")]
    [("Authorization", authorization)]
  = jsonHeaders authorization.
Proof. reflexivity. Qed.

(** X13.  A permission value calculated from defined flags and passed to
    [generateBotAuthUrl] is found in the [permissions] parameter of the URL,
    and [getPermissionFlags] reads that parameter back as the same
    flags. *)
Theorem permissions_survive_bot_url this (S : list string) guildId disableGuildSelect scopes state :
  definedFlags S = true ->
  exists text,
    searchParams_get
      (queryOf (generateBotAuthUrl this
                  (mkBotOptions (Some (StringValue (calculatePermissions (map flag S))))
                     guildId disableGuildSelect scopes state)))
      "permissions" = Some text
    /\ getPermissionFlags (PermString text)
       = Normal (filter (fun name => memberOf name S) flagNames).
Proof.
  intros Hdef. exists (calculatePermissions (map flag S)). split.
  - rewrite queryOf_generateBotAuthUrl.
    destruct (generateBotAuthUrl_searchParams this
                (mkBotOptions (Some (StringValue (calculatePermissions (map flag S))))
                   guildId disableGuildSelect scopes state))
      as (_ & _ & _ & Hpermissions & _).
    exact Hpermissions.
  - apply getPermissionFlags_calculated. exact Hdef.
Qed.

Lemma permissions_survive_bot_url_witness :
  exists text,
    searchParams_get
      (queryOf (generateBotAuthUrl sampleClient
                  (mkBotOptions
                     (Some (StringValue
                              (calculatePermissions (map flag ["VIEW_CHANNEL"; "SEND_MESSAGES"]))))
                     (Some "42") None None None)))
      "permissions" = Some text
    /\ getPermissionFlags (PermString text)
       = Normal (filter (fun name => memberOf name ["VIEW_CHANNEL"; "SEND_MESSAGES"]) flagNames).
Proof.
  exact (permissions_survive_bot_url sampleClient ["VIEW_CHANNEL"; "SEND_MESSAGES"]
           (Some "42") None None None eq_refl).
Defined.

(** X14.  When the transport answers with a response that is ok, each of
    [get], [post] and [put] resolves to the parsed JSON if the response
    declares JSON, rejects with the [SyntaxError] of [response.json()] if it
    declares JSON that does not parse, and resolves to the empty object,
    whatever the body, if it does not declare JSON. *)
Theorem ok_response_mapping url body headers transport status text contentType value :
  (forall request, transport request = Some (OkResponse status text contentType value)) ->
  let expected :=
    if isJsonContentType contentType then
      match value with
      | Some parsed => Normal parsed
      | None => Threw SyntaxError
      end
    else Normal (JObject []) in
  fst (run transport (get url headers)) = expected
  /\ fst (run transport (post url body headers)) = expected
  /\ fst (run transport (put url body headers)) = expected.
Proof.
  intros Hanswer. cbv zeta. unfold get, post, put.
  rewrite !run_request, !Hanswer. cbn [fst settle ok Http.contentType json].
  repeat split; reflexivity.
Qed.

Lemma ok_response_mapping_witness :
  fst (run (always (OkResponse 204 "No Content" None None)) (get "u" [])) = Normal (JObject [])
  /\ fst (run (always (OkResponse 204 "No Content" None None)) (post "u" "b" []))
     = Normal (JObject [])
  /\ fst (run (always (OkResponse 204 "No Content" None None)) (put "u" "b" []))
     = Normal (JObject []).
Proof.
  exact (ok_response_mapping "u" "b" [] (always (OkResponse 204 "No Content" None None))
           204 "No Content" None None (fun _ => eq_refl)).
Defined.

Example ok_json_without_body_is_SyntaxError :
  fst (run (always (OkResponse 200 "OK" (Some "application/json; charset=utf-8") None))
         (revokeToken sampleClient "token" None))
  = Threw SyntaxError.
Proof. vm_compute. reflexivity. Qed.

(** X15.  [get], [post] and [put] hand the transport one request with the
    URL, the method and the body given, and with headers in which every
    header of the caller has the caller's value and the defaults
    ([User-Agent], and [Content-Type] for [post] and [put]) stand
    wherever the caller gives none of that name. *)
Theorem helper_request_headers url body headers transport name :
  distinct (map fst headers) = true ->
  let merged defaults :=
    match property headers name with
    | Some value => Some value
    | None => property defaults name
    end in
  (exists sent,
     snd (run transport (get url headers)) = [mkRequest url GET sent None]
     /\ property sent name = merged [("User-Agent", USER_AGENT)])
  /\ (exists sent,
        snd (run transport (post url body headers)) = [mkRequest url POST sent (Some body)]
        /\ property sent name
           = merged [("User-Agent", USER_AGENT);
                     ("Content-Type", "application/x-www-form-urlencoded")])
  /\ (exists sent,
        snd (run transport (put url body headers)) = [mkRequest url PUT sent (Some body)]
        /\ property sent name
           = merged [("User-Agent", USER_AGENT); ("Content-Type", "application/json")]).
Proof.
  intros Hdistinct. cbv zeta. unfold get, post, put. rewrite !run_request. cbn [snd].
  repeat split; eexists; (split; [reflexivity | apply property_spread; exact Hdistinct]).
Qed.

Lemma helper_request_headers_witness :
  let headers := [("Content-Type", "text/plain"); ("Authorization", "Bearer t")] in
  let merged defaults :=
    match property headers "Content-Type" with
    | Some value => Some value
    | None => property defaults "Content-Type"
    end in
  (exists sent,
     snd (run (always invalidGrant) (get "u" headers)) = [mkRequest "u" GET sent None]
     /\ property sent "Content-Type" = merged [("User-Agent", USER_AGENT)])
  /\ (exists sent,
        snd (run (always invalidGrant) (post "u" "b" headers))
        = [mkRequest "u" POST sent (Some "b")]
        /\ property sent "Content-Type"
           = merged [("User-Agent", USER_AGENT);
                     ("Content-Type", "application/x-www-form-urlencoded")])
  /\ (exists sent,
        snd (run (always invalidGrant) (put "u" "b" headers))
        = [mkRequest "u" PUT sent (Some "b")]
        /\ property sent "Content-Type"
           = merged [("User-Agent", USER_AGENT); ("Content-Type", "application/json")]).
Proof.
  exact (helper_request_headers "u" "b"
           [("Content-Type", "text/plain"); ("Authorization", "Bearer t")]
           (always invalidGrant) "Content-Type" eq_refl).
Defined.

(** X16.  No method of the client makes more than one request, whatever its
    arguments and whatever the transport answers: nothing is retried. *)
Theorem at_most_one_request this transport
    code token hint scopes accessToken guildId userId userAccessToken options :
  (List.length (snd (run transport (exchangeCode this code))) <= 1
   /\ List.length (snd (run transport (refreshToken this token))) <= 1
   /\ List.length (snd (run transport (getClientCredentials this scopes))) <= 1
   /\ List.length (snd (run transport (revokeToken this token hint))) <= 1
   /\ List.length (snd (run transport (addUserToGuild this guildId userId userAccessToken options))) <= 1
   /\ List.length (snd (run transport (getCurrentBotApplication this))) <= 1
   /\ List.length (snd (run transport (getCurrentAuthorizationInfo this accessToken))) <= 1
   /\ List.length (snd (run transport (getUser this accessToken))) <= 1
   /\ List.length (snd (run transport (getUserGuilds this accessToken))) <= 1
   /\ List.length (snd (run transport (getUserConnections this accessToken))) <= 1)%nat.
Proof.
  unfold exchangeCode, refreshToken, getClientCredentials, revokeToken, addUserToGuild,
    getCurrentBotApplication, getCurrentAuthorizationInfo, getUser, getUserGuilds,
    getUserConnections, get, post, put.
  repeat split;
    repeat match goal with
           | |- context [if isFalsy ?v then _ else _] => destruct (isFalsy v)
           end;
    rewrite ?run_request, ?run_request_void; cbn [run snd List.length]; lia.
Qed.

(** A transport that fails at the connection is asked once, and its failure
    is what the method rejects with. *)
Example failing_transport_is_asked_once :
  run (fun _ => None) (getUser sampleClient "token")
  = (Threw NetworkError,
     [mkRequest "https://discord.com/api/v10/users/@me" GET (plainHeaders "Bearer token") None]).
Proof. vm_compute. reflexivity. Qed.





(** X20.  [getClientCredentials] validates nothing and makes one POST to
    the token endpoint with the client's Basic credentials; its form body
    reads back as the grant type alone when no scopes are passed, and with
    a [scope] of the scopes joined by spaces when a list is passed, the
    empty list giving an empty [scope]. *)
Theorem getClientCredentials_request this scopes transport :
  let headers := formHeaders (encodeBasicAuth (clientId this) (clientSecret this)) in
  exists body,
    run transport (getClientCredentials this scopes)
    = (settle (transport (mkRequest DISCORD_OAUTH2_URLS_TOKEN POST headers (Some body))),
       [mkRequest DISCORD_OAUTH2_URLS_TOKEN POST headers (Some body)])
    /\ parseQuery body
       = ("grant_type", "client_credentials") :: optional "scope" (option_map (join " ") scopes).
Proof.
  cbv zeta. unfold getClientCredentials, post, basicAuthHeaders.
  rewrite run_request, spread_form. eexists. split; [reflexivity |].
  rewrite formBody_defined by reflexivity. rewrite parseQuery_serializeQuery.
  destruct scopes; reflexivity.
Qed.

Example getClientCredentials_empty_scopes :
  snd (run (always invalidGrant) (getClientCredentials sampleClient (Some [])))
  = [ mkRequest DISCORD_OAUTH2_URLS_TOKEN POST (formHeaders "Basic MTIzOnNlY3JldA==")
        (Some "grant_type=client_credentials&scope=") ]
  /\ snd (run (always invalidGrant) (getClientCredentials sampleClient None))
     = [ mkRequest DISCORD_OAUTH2_URLS_TOKEN POST (formHeaders "Basic MTIzOnNlY3JldA==")
           (Some "grant_type=client_credentials") ].
Proof. split; vm_compute; reflexivity. Qed.



(** X22.  With a non-empty access token, [getCurrentAuthorizationInfo],
    [getUser], [getUserGuilds] and [getUserConnections] each make one GET,
    without body, to their path under the client's API endpoint with the
    header [Authorization: Bearer {token}], and complete as the answer
    settles; [getCurrentBotApplication] does the same, without any
    validation, with the client's Basic credentials. *)
Theorem lookup_requests this accessToken transport :
  accessToken <> "" ->
  let bearer path :=
    mkRequest (apiEndpoint this ++ path) GET (plainHeaders ("Bearer " ++ accessToken)) None in
  let basic :=
    mkRequest (apiEndpoint this ++ "/oauth2/applications/@me") GET
      (plainHeaders (encodeBasicAuth (clientId this) (clientSecret this))) None in
  run transport (getCurrentAuthorizationInfo this accessToken)
  = (settle (transport (bearer "/oauth2/@me")), [bearer "/oauth2/@me"])
  /\ run transport (getUser this accessToken)
     = (settle (transport (bearer "/users/@me")), [bearer "/users/@me"])
  /\ run transport (getUserGuilds this accessToken)
     = (settle (transport (bearer "/users/@me/guilds")), [bearer "/users/@me/guilds"])
  /\ run transport (getUserConnections this accessToken)
     = (settle (transport (bearer "/users/@me/connections")), [bearer "/users/@me/connections"])
  /\ run transport (getCurrentBotApplication this) = (settle (transport basic), [basic]).
Proof.
  intros Htoken. cbv zeta.
  unfold getCurrentAuthorizationInfo, getUser, getUserGuilds, getUserConnections,
    getCurrentBotApplication, bearerHeaders, basicAuthHeaders, get.
  rewrite (isFalsy_nonempty _ Htoken), !run_request, !spread_plain.
  repeat split; reflexivity.
Qed.

Lemma lookup_requests_witness :
  let bearer path :=
    mkRequest (apiEndpoint sampleClient ++ path) GET (plainHeaders ("Bearer " ++ "t0ken")) None in
  let basic :=
    mkRequest (apiEndpoint sampleClient ++ "/oauth2/applications/@me") GET
      (plainHeaders (encodeBasicAuth (clientId sampleClient) (clientSecret sampleClient))) None in
  run (always invalidGrant) (getCurrentAuthorizationInfo sampleClient "t0ken")
  = (settle (always invalidGrant (bearer "/oauth2/@me")), [bearer "/oauth2/@me"])
  /\ run (always invalidGrant) (getUser sampleClient "t0ken")
     = (settle (always invalidGrant (bearer "/users/@me")), [bearer "/users/@me"])
  /\ run (always invalidGrant) (getUserGuilds sampleClient "t0ken")
     = (settle (always invalidGrant (bearer "/users/@me/guilds")), [bearer "/users/@me/guilds"])
  /\ run (always invalidGrant) (getUserConnections sampleClient "t0ken")
     = (settle (always invalidGrant (bearer "/users/@me/connections")),
        [bearer "/users/@me/connections"])
  /\ run (always invalidGrant) (getCurrentBotApplication sampleClient)
     = (settle (always invalidGrant basic), [basic]).
Proof.
  exact (lookup_requests sampleClient "t0ken" (always invalidGrant) ltac:(discriminate)).
Defined.

(** What [addUserToGuild] does once its checks pass. *)
Lemma addUserToGuild_run this token guildId userId userAccessToken options transport :
  botToken this = Some token -> token <> "" ->
  guildId <> "" -> userId <> "" -> userAccessToken <> "" ->
  let sent :=
    mkRequest (apiEndpoint this ++ "/guilds/" ++ guildId ++ "/members/" ++ userId) PUT
      (jsonHeaders ("Bot " ++ token))
      (Some (addUserToGuild_payload userAccessToken options)) in
  run transport (addUserToGuild this guildId userId userAccessToken options)
  = (settleVoid (transport sent), [sent]).
Proof.
  intros Hbot Htoken Hguild Huser Haccess. cbv zeta.
  unfold addUserToGuild. rewrite Hbot. rewrite !isFalsy_nonempty by assumption.
  cbn [valueOr]. unfold put. rewrite run_request_void, spread_json. reflexivity.
Qed.

(** X23.  Given a non-empty client id, client secret and redirect URI, the
    constructor succeeds and stores them as given; the API endpoint is the
    one given unless it is missing or empty, in which case it is the
    default; the bot token is stored without any check, so that an empty
    one is accepted here and [addUserToGuild] then rejects as if there were
    none, without a request. *)
Theorem constructor_stores_configuration id secret uri endpoint bot :
  id <> "" -> secret <> "" -> uri <> "" ->
  let client :=
    mkClient id secret uri
      (match endpoint with Some (String c e) => String c e | _ => DEFAULT_API_ENDPOINT end)
      bot in
  new_OAuth2Client (mkOptions (Some id) (Some secret) (Some uri) endpoint bot) = Normal client
  /\ (bot = None \/ bot = Some "" ->
      forall guildId userId userAccessToken options transport,
        run transport (addUserToGuild client guildId userId userAccessToken options)
        = (Threw (ValidationError "Bot token is required to add members to a guild"), [])).
Proof.
  intros Hid Hsecret Huri. cbv zeta. split.
  - unfold new_OAuth2Client.
    cbn [opt_clientId opt_clientSecret opt_redirectUri opt_apiEndpoint opt_botToken].
    rewrite !isFalsy_nonempty by assumption. cbn [orb valueOr].
    rewrite orElse_spec. reflexivity.
  - intros [-> | ->]; reflexivity.
Qed.

Lemma constructor_stores_configuration_witness :
  let client :=
    mkClient "123" "secret" "https://app.example/callback" DEFAULT_API_ENDPOINT (Some "") in
  new_OAuth2Client
    (mkOptions (Some "123") (Some "secret") (Some "https://app.example/callback") (Some "")
       (Some ""))
  = Normal client
  /\ (Some "" = None \/ Some "" = Some "" ->
      forall guildId userId userAccessToken options transport,
        run transport (addUserToGuild client guildId userId userAccessToken options)
        = (Threw (ValidationError "Bot token is required to add members to a guild"), [])).
Proof.
  exact (constructor_stores_configuration "123" "secret" "https://app.example/callback"
           (Some "") (Some "") ltac:(discriminate) ltac:(discriminate) ltac:(discriminate)).
Defined.

(** X24.  [setBotToken] with a non-empty token changes the bot token and
    nothing else, whatever token the client had; on the client it returns,
    [addUserToGuild] with non-empty arguments makes its one PUT with
    [Authorization: Bot {token}] and completes as the answer settles. *)
Theorem setBotToken_enables_addUserToGuild this token
    guildId userId userAccessToken options transport :
  token <> "" -> guildId <> "" -> userId <> "" -> userAccessToken <> "" ->
  exists client,
    setBotToken this token = Normal client
    /\ clientId client = clientId this
    /\ clientSecret client = clientSecret this
    /\ redirectUri client = redirectUri this
    /\ apiEndpoint client = apiEndpoint this
    /\ botToken client = Some token
    /\ let sent :=
         mkRequest (apiEndpoint this ++ "/guilds/" ++ guildId ++ "/members/" ++ userId) PUT
           (jsonHeaders ("Bot " ++ token))
           (Some (addUserToGuild_payload userAccessToken options)) in
       run transport (addUserToGuild client guildId userId userAccessToken options)
       = (settleVoid (transport sent), [sent]).
Proof.
  intros Htoken Hguild Huser Haccess.
  unfold setBotToken. rewrite (isFalsy_nonempty _ Htoken).
  eexists. split; [reflexivity |]. repeat (split; [reflexivity |]).
  exact (addUserToGuild_run
           (mkClient (clientId this) (clientSecret this) (redirectUri this) (apiEndpoint this)
              (Some token))
           token guildId userId userAccessToken options transport
           eq_refl Htoken Hguild Huser Haccess).
Qed.

Lemma setBotToken_enables_addUserToGuild_witness :
  exists client,
    setBotToken (mkClient "123" "secret" "https://app.example/callback" DEFAULT_API_ENDPOINT None)
      "fresh"
    = Normal client
    /\ clientId client = "123"
    /\ clientSecret client = "secret"
    /\ redirectUri client = "https://app.example/callback"
    /\ apiEndpoint client = DEFAULT_API_ENDPOINT
    /\ botToken client = Some "fresh"
    /\ let sent :=
         mkRequest (DEFAULT_API_ENDPOINT ++ "/guilds/" ++ "1" ++ "/members/" ++ "2") PUT
           (jsonHeaders ("Bot " ++ "fresh"))
           (Some (addUserToGuild_payload "user" (mkMemberOptions None None None None))) in
       run (always (OkResponse 204 "No Content" None None))
         (addUserToGuild client "1" "2" "user" (mkMemberOptions None None None None))
       = (settleVoid (always (OkResponse 204 "No Content" None None) sent), [sent]).
Proof.
  exact (setBotToken_enables_addUserToGuild
           (mkClient "123" "secret" "https://app.example/callback" DEFAULT_API_ENDPOINT None)
           "fresh" "1" "2" "user" (mkMemberOptions None None None None)
           (always (OkResponse 204 "No Content" None None))
           ltac:(discriminate) ltac:(discriminate) ltac:(discriminate) ltac:(discriminate)).
Defined.

(** X25.  With a bot token configured, [addUserToGuild] checks its
    arguments in the order guild id, user id, access token: the first one
    that is empty decides the [ValidationError], and no request is made. *)
Theorem addUserToGuild_checks_in_order this token guildId userId userAccessToken options transport :
  botToken this = Some token -> token <> "" ->
  run transport (addUserToGuild this "" userId userAccessToken options)
  = (Threw (ValidationError "Guild ID is required"), [])
  /\ (guildId <> "" ->
      run transport (addUserToGuild this guildId "" userAccessToken options)
      = (Threw (ValidationError "User ID is required"), []))
  /\ (guildId <> "" -> userId <> "" ->
      run transport (addUserToGuild this guildId userId "" options)
      = (Threw (ValidationError "User access token is required"), [])).
Proof.
  intros Hbot Htoken. unfold addUserToGuild. rewrite Hbot, (isFalsy_nonempty _ Htoken).
  split; [reflexivity |]. split.
  - intros Hguild. rewrite (isFalsy_nonempty _ Hguild). reflexivity.
  - intros Hguild Huser.
    rewrite (isFalsy_nonempty _ Hguild), (isFalsy_nonempty _ Huser). reflexivity.
Qed.

Lemma addUserToGuild_checks_in_order_witness :
  run (always invalidGrant)
    (addUserToGuild sampleClient "" "" "" (mkMemberOptions None None None None))
  = (Threw (ValidationError "Guild ID is required"), [])
  /\ ("1" <> "" ->
      run (always invalidGrant)
        (addUserToGuild sampleClient "1" "" "" (mkMemberOptions None None None None))
      = (Threw (ValidationError "User ID is required"), []))
  /\ ("1" <> "" -> "" <> "" ->
      run (always invalidGrant)
        (addUserToGuild sampleClient "1" "" "" (mkMemberOptions None None None None))
      = (Threw (ValidationError "User access token is required"), [])).
Proof.
  exact (addUserToGuild_checks_in_order sampleClient "bot-token" "1" "" ""
           (mkMemberOptions None None None None) (always invalidGrant)
           eq_refl ltac:(discriminate)).
Defined.

(** X26.  Whatever characters the user access token holds (quotes,
    backslashes, control characters) and whatever options are passed, the
    body of [addUserToGuild] opens with the property [access_token] whose
    JSON string reads back as exactly that token. *)
Theorem payload_carries_access_token userAccessToken options :
  accessTokenOf (addUserToGuild_payload userAccessToken options) = Some userAccessToken.
Proof.
  unfold addUserToGuild_payload.
  destruct (stringifyObject_first "access_token" (JString userAccessToken)
              [ ("nick", option_map JString (member_nick options));
                ("roles", option_map (fun roles => JArray (map JString roles))
                            (member_roles options));
                ("mute", option_map JBool (member_mute options));
                ("deaf", option_map JBool (member_deaf options)) ]) as [rest Hrest].
  rewrite Hrest. unfold accessTokenOf. cbn [stringify].
  assert (Hshape :
    "{" ++ quote "access_token" ++ ":" ++ quote userAccessToken ++ rest
    = ("{" ++ quote "access_token" ++ ":" ++ String doubleQuote "")
      ++ (quoteBody userAccessToken ++ String doubleQuote rest)).
  { unfold quote. change (ascii_of_nat 34) with doubleQuote.
    repeat (rewrite !append_assoc; cbn [String.append]). reflexivity. }
  rewrite Hshape, stripPrefix_app, readString_quoteBody. reflexivity.
Qed.

Example payload_with_quotes :
  accessTokenOf
    (addUserToGuild_payload (String doubleQuote ("," ++ String doubleQuote "nick" ++ String backslash ""))
       (mkMemberOptions (Some "n") (Some ["r"]) (Some true) None))
  = Some (String doubleQuote ("," ++ String doubleQuote "nick" ++ String backslash "")).
Proof. vm_compute. reflexivity. Qed.

End ClientLaws.
